(* ===== verification/_CoqProject ===== *)
-Q . S2P
Prelude.v
PyPath.v
Catalog.v
Archive.v
Merger.v
Index.v
Flows.v
Ranking.v
Lifecycle.v
Pipeline.v
Concurrency.v
QueryMachine.v
Persist.v
Scenarios.v
