(* ===== verification/Prelude.v ===== *)
(** * Memery: a verification development of [src/memery]

    Memery indexes a folder of images for text and image search. Its two
    Python sources are [src/memery/loader.py] (the scan, the identity key,
    the reconciliation of the scan with the saved archive, the loaders of
    the two saved files) and [src/memery/core.py] (the entry points
    [index_flow] and [query_flow]). They call modules that are not among
    the sources ([indexer], [ranker], [crafter], [encoder]): these are
    modelled from the spec and marked so in the manifest.

    ** How the parts interact

    [index_flow]: scan the root ([get_image_files]) -> reconcile with
    [memery.pt] ([archive_loader]: keep the entries whose hash is still
    scanned, list the scanned files to encode) -> encode the new files
    ([crafter], [image_encoder], the class [Clip]) -> merge ([join_all]) ->
    build the Annoy index ([build_treemap]) -> save both files
    ([save_archives]). [query_flow]: load both files -> make the query
    vector (text, image or their sum) -> rank ([ranker]) -> resolve the
    paths ([nns_to_files]).

    ** Files

    - [Prelude]: Python's exceptions ([py_error]) and an error monad
      [result] with the notation [x <- c ;; k] in [memery_scope]; a Python
      dict with integer keys as its [items()] in insertion order ([pydict],
      [dict_get], [dict_getitem] raising [KeyError], [enumerate]); Python's
      [in] on string lists ([py_in]); shared list lemmas, the hint
      databases [memery] and the tactic [py_bool].
    - [PyPath]: the library behaviour the loader relies on: [str.rfind],
      [str.split(".")[0]] ([split_dot0]), [PurePath.suffix/.stem/.name],
      [str(path)]; the file system as a tree [fnode] with [rglob] in
      [os.walk] order, [stat] ([fs_lookup]) and [open] of a string path
      ([fs_open]); well-formed trees ([fsys_wfb]: non-empty names without
      '/', siblings named apart), on which the scan's path strings are
      distinct.
    - [Catalog] (loader.py l.16-35): [hash_path], [img_extensions],
      [get_image_files], [verify_image] (PIL is the class [Pil]),
      [get_valid_images].
    - [Archive] (loader.py l.37-53): the entry record, [db_loader],
      [archive_loader] with its dict comprehension [archive_comp], and the
      reconciliation contract of spec 4.2 as the record [reconciles].
    - [Merger]: [join_all] (spec 4.3): reused entries first, then the new
      files with their embeddings, renumbered from 0.
    - [Index]: [treemap_loader] (loader.py l.55-62); [build_treemap] (spec
      4.4: add item [i] for each [i < len(db)], fail on a missing index or
      a dimension other than 512); the exact angular order ([angular_key],
      [key_le]) and the ranking as a stable insertion sort ([ranker]);
      [nns_to_files] (spec 4.5).
    - [Flows] (core.py): the persisted state [store] (tree, [memery.pt],
      [memery.ann]), [index_flow], [query_vector], [query_flow].
    - [Ranking]: the ranking contract of spec 4.5 ([stable_rank]: the
      archive's entries nearest first, ties in archive order), its
      uniqueness, and the refinement of it by [query_flow].
    - [Lifecycle]: the saved state of a root across runs: the relation
      [step] (a run of [index_flow] that returns, or an edit of the tree)
      and its [reachable] states from a root with nothing saved.
    - [Pipeline]: [index_flow] statement by statement: the phase
      [iphase] holds its local variables, [istep] executes one statement
      of core.py l.15-34 with the operations of [Flows], and the saving
      writes [memery.pt] and [memery.ann] in two steps ([save_db],
      [save_ann]); [irun] is the generic [run] of this file.
    - [Concurrency]: two runs of the [Pipeline] machine and edits of the
      tree on one shared store, scheduled move by move ([run_sched]), with
      and without a lock across the two writes ([may_write]).
    - [QueryMachine]: [query_flow] statement by statement ([qstep], core.py
      l.48-89), with the reindex check of the commented-out l.60-65
      ([stale]) behind the spec 9 policy flag [auto_reindex].
    - [Persist]: the two files as bytes: the class [Codec] of
      [torch.save]/[torch.load] and Annoy's [save]/[load] with their
      round-trip laws (spec 6), [db_loader] and [treemap_loader] on bytes
      ([db_loader_bytes], [treemap_loader_bytes], raising on an unreadable
      file), the flows on bytes, the events on a root's files ([fstep]),
      and a codec over lists of integers that meets the laws.
    - [Scenarios]: concrete instances and directories, the end-to-end
      example of spec 8.6, the runs behind the findings, and the
      witnesses of the theorems with hypotheses.

    ** What the theorems show (claims C1-C21, most important first)

    - Indexing (C1, C3-C7, C18): under [run_ok] a run returns; every run
      leaves the invariant [store_inv] (keys [0 .. N-1], index item [i] =
      embedding of entry [i]); a second run on an unchanged directory
      lists no file to encode and returns the same state whatever the
      encoder; more generally a run sees a file only through its key
      (stem and whole seconds of the mtime), so a move, an edit within one
      second or a twin with the same key leaves the archive, old paths and
      embeddings included, as it was; deleted files' entries are gone; a
      file with a new key is encoded from its current bytes; a vector of
      the wrong dimension makes the run fail loudly.
    - Reconciliation (C2, C19, C20): [archive_loader] refines the spec's
      contract [reconciles] (no stale entry, reusable entries kept
      unchanged, every verified scanned file reused or listed for
      encoding, never both); it does not depend on the scan's order; its
      dict comprehension is a filter of [enumerate(db.values())] whose keys
      are the old positions, skipped entries counted.
    - Querying (C8, C9): on a state with the invariant a query returns
      every archived path once, exactly the paths of the one list that
      meets the ranking contract (nearest first, ties in archive order).
    - Across runs (C10, C11, C21, by induction on [reachable]): every
      reachable state has nothing saved or an aligned, dense,
      512-dimensional pair of files, with one index item per entry; from it
      a new run on a well-formed tree returns.
    - Statement by statement (C12, C13): stopped after any statement a run
      has left the old files, the new [memery.pt] beside the old
      [memery.ann], or both new; from any of these the next run returns
      and saves an aligned pair. (Library lemmas: the machine ends within
      8 statements and is [index_flow].)
    - Two runs (C14): with the lock, every interleaving keeps the files
      consistent whenever neither run is between its writes. (Library
      lemma: every locked schedule can be completed.)
    - The query machine (C15): with the policy on every reachable state
      serves a valid query, a missing index included. (Library lemma: with
      the policy off the machine is [query_flow].)
    - The files as bytes (C16, C17): an unreadable [memery.pt] blocks its
      root for good; an unreadable [memery.ann] fails every query, but a
      run on an indexable tree returns and rewrites it as an aligned pair.
    - The runs behind the findings ([Scenarios], examples, not claims): a
      moved file keeps a stale path; a same-name same-second file is never
      indexed, and a deleted twin survives reindexing; an edit within one
      second keeps the old embedding; [.JPG] is not scanned; the scan of
      [query_flow] is dead code, so a deleted file is still returned;
      without the lock two runs can misalign the files; the count-based
      reindex check misses a file replaced by another; no query raises
      [NameError] and a missing [memery.ann] raises [AttributeError].
    - Supporting lemmas: Cauchy-Schwarz on integer vectors and the total
      preorder of the angular keys ([Index]); the ranking sort is a stable,
      strongly sorted permutation; [join_all] numbers densely; the build is
      aligned with the archive; [run] terminates under a decreasing rank.

    ** Modelling choices, bounds and fuel

    - Embeddings are integer vectors: cosines do not change when a vector
      is scaled by a positive factor, so rational embeddings are covered
      after a common denominator; float rounding is not modelled. The
      angular order compares [d |d| / |u|^2] ([d = q . u]) as fractions,
      the factor [|q|^2] left out; a zero vector gets key 0.
    - Annoy's approximate search is modelled as exact: the spec asks for
      the nearest items by the index's metric.
    - No fuel is needed for the functions: every one is structurally
      recursive (the nested [rglob] recurses on the tree). The machines
      [irun] and [qrun] take a number of statements; 8 and 7 are enough
      because every statement that does not end a run lowers the rank of
      its phase ([irank], [qrank]), and more statements change nothing.
    - The save order [memery.pt] then [memery.ann] follows spec 6 and the
      order of the paths [index_flow] returns; [indexer.save_archives] is
      not among the sources.
    - The float [st_mtime] is kept as its [str()] text, which is what the
      key reads.

    ** State of the plan

    Done: the components of both sources and the collaborators the spec
    names, each operation that changes the persisted state, the entry
    points whole and statement by statement, runs across time, two
    concurrent runs, the reindex policy and the files as bytes.

    ** Not modelled

    - The CLIP model ([crafter.preproc], [encoder]'s forward pass) is the
      class [Clip]: one vector per input; its numbers are not derivable
      from the sources. Image decoding is the class [Pil].
    - The byte layouts of [torch.save] and of Annoy's index file are the
      class [Codec]: only their round-trip law (spec 6) is used, and one
      codec meeting it is given.
    - The tensor device ([torch.device], core.py l.12 and l.50), the
      prints and the timings (l.19-20, 28, 31, 48, 53, 68, 80, 83, 87) do
      not affect any result; float rounding of embeddings; symlinks.
*)
From Stdlib Require Export String Ascii List ZArith Lia Bool Permutation.
Export ListNotations.

Declare Scope memery_scope.
Delimit Scope memery_scope with memery.

(** ** Python exceptions that the modelled code can raise *)
Inductive py_error : Type :=
| KeyError (key : nat)
| NameError (name : string)
| AttributeError (name : string)
| AnnoyError (why : string)
| OSError (path : string)
| UnpicklingError (path : string).   (** [torch.load] of a file it cannot read *)

(** ** The error monad: a Python call either returns or raises *)
Inductive result (A : Type) : Type :=
| Ok (a : A)
| Raise (e : py_error).
Arguments Ok {A} a.
Arguments Raise {A} e.

Definition bind {A B : Type} (r : result A) (k : A -> result B) : result B :=
  match r with
  | Ok a => k a
  | Raise e => Raise e
  end.

Notation "x <- c1 ;; c2" := (bind c1 (fun x => c2))
  (at level 61, c1 at next level, right associativity) : memery_scope.
Notation "' pat <- c1 ;; c2" := (bind c1 (fun pat => c2))
  (at level 61, pat pattern, c1 at next level, right associativity) : memery_scope.

(** ** Python's [x in xs] on a list of strings *)
Definition py_in (x : string) (xs : list string) : bool := existsb (String.eqb x) xs.

(** ** A Python dict with integer keys, as its [items()] in insertion order *)
Definition pydict (V : Type) : Type := list (nat * V).

(** A dict never holds a key twice: the representation invariant. *)
Definition dict_wf {V} (d : pydict V) : Prop := NoDup (map fst d).

Fixpoint dict_get {V} (d : pydict V) (k : nat) : option V :=
  match d with
  | [] => None
  | (k', v) :: d' => if Nat.eqb k k' then Some v else dict_get d' k
  end.

(** [d[k]]: raises [KeyError] on a missing key. *)
Definition dict_getitem {V} (d : pydict V) (k : nat) : result V :=
  match dict_get d k with
  | Some v => Ok v
  | None => Raise (KeyError k)
  end.

Definition dict_values {V} (d : pydict V) : list V := map snd d.

(** [enumerate(xs, i)] as a dict: position [i + j] maps to the [j]-th value. *)
Fixpoint enumerate {V} (i : nat) (xs : list V) : pydict V :=
  match xs with
  | [] => []
  | x :: xs' => (i, x) :: enumerate (S i) xs'
  end.

(** ** Programs run statement by statement

    A statement takes the persisted state and the local variables (the
    phase) to new ones; [run n] executes [n] statements. [Pipeline] and
    [QueryMachine] instantiate it with the two entry points. *)
Fixpoint run {St Ph : Type} (step : St -> Ph -> St * Ph) (n : nat) (s : St) (p : Ph) : St * Ph :=
  match n with
  | 0 => (s, p)
  | S n' => let '(s', p') := step s p in run step n' s' p'
  end.

(** ** Lemmas on results, [in] and dicts *)

Lemma bind_Ok {A B} (a : A) (k : A -> result B) : bind (Ok a) k = k a.
Proof. reflexivity. Qed.

Lemma bind_Raise {A B} (e : py_error) (k : A -> result B) : bind (Raise e) k = Raise e.
Proof. reflexivity. Qed.

Lemma bind_eq_Ok {A B} (r : result A) (k : A -> result B) (b : B) :
  bind r k = Ok b -> exists a, r = Ok a /\ k a = Ok b.
Proof. destruct r; simpl; [eauto | discriminate]. Qed.

Lemma py_in_iff x xs : py_in x xs = true <-> In x xs.
Proof.
  unfold py_in. rewrite existsb_exists. split.
  - intros [y [Hy Heq]]. apply String.eqb_eq in Heq. now subst.
  - intros H. exists x. split; [exact H | apply String.eqb_refl].
Qed.

Lemma py_in_false x xs : py_in x xs = false <-> ~ In x xs.
Proof.
  rewrite <- py_in_iff. destruct (py_in x xs); split; congruence.
Qed.

Lemma dict_get_In {V} (d : pydict V) k v :
  dict_wf d -> In (k, v) d -> dict_get d k = Some v.
Proof.
  unfold dict_wf. induction d as [|[k' v'] d IH]; simpl; [tauto|].
  intros Hnd Hin. inversion Hnd as [|? ? Hnotin Hnd']; subst.
  destruct Hin as [Heq | Hin].
  - inversion Heq; subst. now rewrite Nat.eqb_refl.
  - destruct (Nat.eqb_spec k k'); [|auto].
    subst. exfalso. apply Hnotin. now apply (in_map fst) in Hin.
Qed.

Lemma dict_get_Some_In {V} (d : pydict V) k v :
  dict_get d k = Some v -> In (k, v) d.
Proof.
  induction d as [|[k' v'] d IH]; simpl; [discriminate|].
  destruct (Nat.eqb_spec k k'); intros H; [inversion H; subst; auto | auto].
Qed.

Lemma enumerate_keys {V} i (xs : list V) : map fst (enumerate i xs) = seq i (length xs).
Proof. revert i. induction xs as [|x xs IH]; intros i; simpl; congruence. Qed.

Lemma enumerate_values {V} i (xs : list V) : dict_values (enumerate i xs) = xs.
Proof. revert i. induction xs as [|x xs IH]; intros i; simpl; [reflexivity|]. f_equal. apply IH. Qed.

Lemma length_enumerate {V} i (xs : list V) : length (enumerate i xs) = length xs.
Proof. revert i. induction xs as [|x xs IH]; intros i; simpl; [reflexivity|]. now rewrite IH. Qed.

Lemma dict_wf_filter {V} (f : nat * V -> bool) (d : pydict V) :
  dict_wf d -> dict_wf (filter f d).
Proof.
  unfold dict_wf. induction d as [|[k v] d IH]; simpl; intros Hnd; [constructor|].
  inversion Hnd as [|? ? Hk Hnd']; subst.
  destruct (f (k, v)); simpl; [|auto]. constructor; [|auto].
  intros Hin. apply Hk. apply in_map_iff in Hin as [[k' v'] [Heq Hin]].
  apply filter_In in Hin as [Hin _]. simpl in Heq; subst. now apply (in_map fst) in Hin.
Qed.

Lemma dict_wf_enumerate {V} i (xs : list V) : dict_wf (enumerate i xs).
Proof. unfold dict_wf. rewrite enumerate_keys. apply seq_NoDup. Qed.

Lemma filter_enumerate_values {V} (f : V -> bool) i (xs : list V) :
  dict_values (filter (fun kv => f (snd kv)) (enumerate i xs)) = filter f xs.
Proof.
  revert i. induction xs as [|x xs IH]; intros i; simpl; [reflexivity|].
  destruct (f x); simpl; f_equal; apply IH.
Qed.

Lemma dict_get_In_Some {V} (d : pydict V) k v :
  In (k, v) d -> exists v', dict_get d k = Some v'.
Proof.
  induction d as [|[k' v'] d IH]; simpl; [tauto|].
  destruct (Nat.eqb_spec k k'); [eauto|]. intros [Heq|Hin]; [congruence | auto].
Qed.

(** ** Shared list lemmas *)
Lemma filter_map_comm {A B} (f : B -> bool) (g : A -> B) (l : list A) :
  filter f (map g l) = map g (filter (fun x => f (g x)) l).
Proof. induction l as [|x l IH]; simpl; [reflexivity|]. destruct (f (g x)); simpl; congruence. Qed.

Lemma filter_all {A} (f : A -> bool) (l : list A) :
  (forall x, In x l -> f x = true) -> filter f l = l.
Proof.
  induction l as [|x l IH]; simpl; intros H; [reflexivity|].
  rewrite H by auto. f_equal. auto.
Qed.

Lemma filter_none {A} (f : A -> bool) (l : list A) :
  (forall x, In x l -> f x = false) -> filter f l = [].
Proof.
  induction l as [|x l IH]; simpl; intros H; [reflexivity|].
  rewrite H by auto. auto.
Qed.

Lemma map_fst_combine {A B} (l1 : list A) (l2 : list B) :
  length l1 = length l2 -> map fst (combine l1 l2) = l1.
Proof.
  revert l2. induction l1 as [|x l1 IH]; intros [|y l2] Hlen; simpl in *; try congruence.
  f_equal. apply IH. lia.
Qed.

Lemma dict_get_enumerate {V} (vs : list V) i j :
  dict_get (enumerate i vs) (i + j) = nth_error vs j.
Proof.
  revert i j. induction vs as [|v vs IH]; intros i j; simpl; [now destruct j|].
  destruct (Nat.eqb_spec (i + j) i) as [Heq|Hne].
  - assert (j = 0) as -> by lia. reflexivity.
  - destruct j as [|j]; [lia|]. replace (i + S j) with (S i + j) by lia. apply IH.
Qed.

(** A dict whose keys are [k, k+1, ...] in order is an enumeration. *)
Lemma dense_enumerate {V} (d : pydict V) k :
  map fst d = seq k (length d) -> d = enumerate k (dict_values d).
Proof.
  revert k. induction d as [|[k' v] d IH]; intros k Hk; simpl in *; [reflexivity|].
  inversion Hk; subst. f_equal. now apply IH.
Qed.

Lemma Forall2_In_combine {A B} (R : A -> B -> Prop) (l1 : list A) (l2 : list B) x :
  Forall2 R l1 l2 -> In x l1 -> exists y, In (x, y) (combine l1 l2) /\ R x y.
Proof.
  induction 1 as [|a b l1 l2 Hab Hrest IH]; simpl; [tauto|].
  intros [->|Hin]; [eauto|]. destruct (IH Hin) as [y [Hy Hr]]. eauto.
Qed.

Lemma in_combine_map_r {A B C} (g : B -> C) (l1 : list A) (l2 : list B) x y :
  In (x, y) (combine l1 l2) -> In (x, g y) (combine l1 (map g l2)).
Proof.
  revert l2. induction l1 as [|a l1 IH]; intros [|b l2]; simpl; try tauto.
  intros [Heq|Hin]; [left; congruence | right; auto].
Qed.

Lemma Permutation_filter_bool {A} (f : A -> bool) (l l' : list A) :
  Permutation l l' -> Permutation (filter f l) (filter f l').
Proof.
  induction 1 as [|x l l' _ IH|x y l|l l' l'' _ IH1 _ IH2]; simpl.
  - constructor.
  - destruct (f x); [now constructor | exact IH].
  - destruct (f x), (f y); try constructor; reflexivity.
  - now transitivity (filter f l').
Qed.

(** [x in xs] depends on the elements of [xs], not on their order. *)
Lemma py_in_perm x (xs ys : list string) : Permutation xs ys -> py_in x xs = py_in x ys.
Proof.
  intros Hp. destruct (py_in x ys) eqn:E.
  - apply py_in_iff. apply py_in_iff in E. now apply (Permutation_in _ (Permutation_sym Hp)).
  - apply py_in_false. apply py_in_false in E. intros Hin. now apply E, (Permutation_in _ Hp).
Qed.

(** [find] picks the element [x] when no other element of the list passes
    the test with a key that [x] does not share, and keys are unique. *)
Lemma find_unique_key {A K} (key : A -> K) (f : A -> bool) (l : list A) (x : A) :
  NoDup (map key l) -> In x l -> f x = true ->
  (forall y, In y l -> f y = true -> key y = key x) -> find f l = Some x.
Proof.
  induction l as [|a l IH]; simpl; [tauto|]. intros Hnd Hin Hfx Hkey.
  inversion Hnd as [|? ? Hnotin Hnd']; subst.
  destruct (f a) eqn:Ea.
  - destruct Hin as [->|Hin]; [reflexivity|]. exfalso. apply Hnotin.
    rewrite (Hkey a (or_introl eq_refl) Ea). now apply in_map.
  - destruct Hin as [->|Hin]; [congruence|]. apply IH; auto.
Qed.

(** ** Lemmas on runs *)

Section Run.
Context {St Ph : Type} (step : St -> Ph -> St * Ph) (final : Ph -> bool) (rank : Ph -> nat).

Lemma run_S n s p : run step (S n) s p = run step n (fst (step s p)) (snd (step s p)).
Proof. simpl. now destruct (step s p). Qed.

Lemma run_add m n s p : run step (m + n) s p = let '(s', p') := run step m s p in run step n s' p'.
Proof.
  revert s p. induction m as [|m IH]; intros s p; [reflexivity|].
  simpl. destruct (step s p) as [s' p']. apply IH.
Qed.

(** An invariant of every statement holds after any number of them. *)
Lemma run_inv (I : St * Ph -> Prop) n s p :
  (forall s p, I (s, p) -> I (step s p)) -> I (s, p) -> I (run step n s p).
Proof.
  intros Hstep. revert s p. induction n as [|n IH]; intros s p Hi; [exact Hi|].
  simpl. pose proof (Hstep s p Hi) as Hs. destruct (step s p) as [s' p']. now apply IH.
Qed.

Hypothesis step_final : forall s p, final p = true -> step s p = (s, p).

Lemma run_final n s p : final p = true -> run step n s p = (s, p).
Proof. intros Hf. induction n as [|n IH]; simpl; [reflexivity|]. now rewrite step_final. Qed.

Hypothesis step_rank : forall s p, final p = false -> rank (snd (step s p)) < rank p.
Hypothesis rank_zero : forall p, rank p = 0 -> final p = true.

(** Termination: a statement that does not end the run lowers the rank,
    so [rank p] statements end it. *)
Lemma run_terminates n s p : rank p <= n -> final (snd (run step n s p)) = true.
Proof.
  revert s p. induction n as [|n IH]; intros s p Hn.
  - apply rank_zero. simpl. lia.
  - destruct (final p) eqn:Hf; [now rewrite run_final|].
    simpl. pose proof (step_rank s p Hf) as Hr. destruct (step s p) as [s' p'].
    apply IH. simpl in Hr. lia.
Qed.

(** Once ended, more statements change nothing. *)
Lemma run_stable n m s p :
  rank p <= n -> n <= m -> run step m s p = run step n s p.
Proof.
  intros Hn Hm. replace m with (n + (m - n)) by lia. rewrite run_add.
  pose proof (run_terminates n s p Hn) as Hf.
  destruct (run step n s p) as [s' p']. now apply run_final.
Qed.

End Run.

Create HintDb memery.
Create Rewrite HintDb memery.
#[export] Hint Resolve dict_get_In dict_get_Some_In dict_wf_filter dict_wf_enumerate : memery.
#[export] Hint Rewrite @enumerate_keys @enumerate_values @filter_enumerate_values : memery.
#[export] Hint Rewrite @bind_Ok @bind_Raise : memery.

(** [py_bool]: turn the Python [in] tests of a goal into propositions. *)
Ltac py_bool :=
  repeat match goal with
  | H : py_in _ _ = true |- _ => apply py_in_iff in H
  | H : py_in _ _ = false |- _ => apply py_in_false in H
  | H : (_ && _)%bool = true |- _ => apply andb_true_iff in H; destruct H
  | H : negb _ = true |- _ => apply negb_true_iff in H
  | |- py_in _ _ = true => apply py_in_iff
  | |- py_in _ _ = false => apply py_in_false
  end.
