(* ===== verification/PyPath.v ===== *)
(** * PyPath: the Python library behaviour the loader relies on

    [str.rfind], [str.split(".")[0]], [pathlib.PurePath.name/.suffix/.stem],
    [str(path)], and a directory tree with [Path.rglob('*')] and [stat()].
    These are the semantics of CPython 3.12's [pathlib] and [str] as used by
    [src/memery/loader.py] lines 16-22; the tree is the file system the
    loader scans. *)
From S2P Require Import Prelude.
Local Open Scope string_scope.
Local Open Scope memery_scope.

(** ** Strings *)

(** [s.rfind(c)], with [None] for Python's [-1]. *)
Fixpoint rfind_from (c : ascii) (s : string) (pos : nat) (last : option nat) : option nat :=
  match s with
  | EmptyString => last
  | String c' s' => rfind_from c s' (S pos) (if Ascii.eqb c c' then Some pos else last)
  end.

Definition rfind (c : ascii) (s : string) : option nat := rfind_from c s 0 None.

(** [s.split(".")[0]]: everything before the first dot. *)
Fixpoint split_dot0 (s : string) : string :=
  match s with
  | EmptyString => EmptyString
  | String c s' => if Ascii.eqb c "." then EmptyString else String c (split_dot0 s')
  end.

(** [name.rfind('.')] lies strictly inside the name: the pathlib test
    [0 < i < len(name) - 1] shared by [suffix] and [stem]. *)
Definition inner_dot (name : string) : option nat :=
  match rfind "." name with
  | Some i => if Nat.ltb 0 i && Nat.ltb i (String.length name - 1) then Some i else None
  | None => None
  end.

(** [PurePath.suffix] *)
Definition py_suffix (name : string) : string :=
  match inner_dot name with
  | Some i => substring i (String.length name - i) name
  | None => ""
  end.

(** [PurePath.stem] *)
Definition py_stem (name : string) : string :=
  match inner_dot name with
  | Some i => substring 0 i name
  | None => name
  end.

(** ** Paths: a [Path] is its list of components, the root first *)
Definition py_path : Type := list string.

(** [PurePath.name] *)
Definition py_name (p : py_path) : string := last p "".

(** [str(path)] *)
Definition py_str (p : py_path) : string := String.concat "/" p.

(** ** The file system under the indexed root *)

(** Image bytes are opaque to the loader: a list of integers. *)
Definition blob : Type := list Z.

(** A node carries [str(node.stat().st_mtime)], the repr of the float
    modification time, e.g. ["1636012345.123456"]. *)
#[local] Set Warnings "-register-all".
Inductive fnode : Type :=
| FileNode (name : string) (mtime : string) (data : blob)
| DirNode (name : string) (mtime : string) (children : list fnode).

Definition node_name (n : fnode) : string :=
  match n with FileNode nm _ _ | DirNode nm _ _ => nm end.

Definition node_mtime (n : fnode) : string :=
  match n with FileNode _ t _ | DirNode _ t _ => t end.

(** [path.rglob('*')]: every descendant of the directory at [p], files and
    directories alike, in [os.walk] top-down order: the entries of a
    directory, then the walks of its subdirectories in turn. *)
Fixpoint rglob (p : py_path) (n : fnode) : list (py_path * fnode) :=
  match n with
  | FileNode _ _ _ => []
  | DirNode _ _ cs =>
      (map (fun c => ((p ++ [node_name c])%list, c)) cs
      ++ List.concat (map (fun c => rglob (p ++ [node_name c])%list c) cs))%list
  end.

(** The indexed root: its path and the directory tree found there. *)
Record fsys : Type := { fs_root : py_path; fs_tree : fnode }.

(** [root.rglob('*')] *)
Definition fs_entries (fs : fsys) : list (py_path * fnode) := rglob (fs_root fs) (fs_tree fs).

Definition path_eqb (p q : py_path) : bool :=
  if list_eq_dec string_dec p q then true else false.

(** [os.stat(p)] / [open(p)] of a [Path]: the node at [p], if any. *)
Definition fs_lookup (fs : fsys) (p : py_path) : option fnode :=
  option_map snd (find (fun e => path_eqb (fst e) p) (fs_entries fs)).

(** [open(s)] of a string path: the node whose [str(path)] is [s]. *)
Definition fs_open (fs : fsys) (s : string) : option fnode :=
  option_map snd (find (fun e => String.eqb (py_str (fst e)) s) (fs_entries fs)).

(** ** Well-formed trees: what a real file system guarantees *)

Fixpoint slash_free (s : string) : bool :=
  match s with
  | EmptyString => true
  | String c s' => negb (Ascii.eqb c "/") && slash_free s'
  end.

(** A file name: not empty and without ['/']. *)
Definition name_ok (nm : string) : bool := negb (String.eqb nm "") && slash_free nm.

Fixpoint nodup_strings (l : list string) : bool :=
  match l with
  | [] => true
  | x :: l' => negb (py_in x l') && nodup_strings l'
  end.

(** Every name is a file name and the entries of a directory have
    distinct names. *)
Fixpoint tree_wfb (n : fnode) : bool :=
  match n with
  | FileNode nm _ _ => name_ok nm
  | DirNode nm _ cs => name_ok nm && nodup_strings (map node_name cs) && forallb tree_wfb cs
  end.

Definition fsys_wfb (fs : fsys) : bool := forallb name_ok (fs_root fs) && tree_wfb (fs_tree fs).

(** Induction on trees with a hypothesis for every child of a directory. *)
Fixpoint fnode_ind_deep (P : fnode -> Prop)
    (Hfile : forall nm t data, P (FileNode nm t data))
    (Hdir : forall nm t cs, Forall P cs -> P (DirNode nm t cs)) (n : fnode) : P n :=
  match n with
  | FileNode nm t data => Hfile nm t data
  | DirNode nm t cs =>
      Hdir nm t cs
        ((fix go (cs : list fnode) : Forall P cs :=
            match cs with
            | [] => Forall_nil P
            | c :: cs' => Forall_cons c (fnode_ind_deep P Hfile Hdir c) (go cs')
            end) cs)
  end.

(** ** Lemmas *)

(** A string without a dot. *)
Fixpoint dot_free (s : string) : bool :=
  match s with
  | EmptyString => true
  | String c s' => negb (Ascii.eqb c ".") && dot_free s'
  end.

Lemma split_dot0_dot_free s : dot_free (split_dot0 s) = true.
Proof.
  induction s as [|c s IH]; simpl; [reflexivity|].
  destruct (Ascii.eqb_spec c "."); simpl; [reflexivity|].
  rewrite IH. destruct (Ascii.eqb_spec c "."); [contradiction | reflexivity].
Qed.

Lemma split_dot0_app_dot secs frac :
  dot_free secs = true -> split_dot0 (secs ++ String "." frac) = secs.
Proof.
  induction secs as [|c s IH]; simpl; [reflexivity|].
  intros H. apply andb_true_iff in H as [Hc Hs].
  destruct (Ascii.eqb_spec c "."); [discriminate | now rewrite IH].
Qed.

Lemma split_dot0_dot_free_id s : dot_free s = true -> split_dot0 s = s.
Proof.
  induction s as [|c s IH]; simpl; [reflexivity|].
  intros H. apply andb_true_iff in H as [Hc Hs].
  destruct (Ascii.eqb_spec c "."); [discriminate | now rewrite IH].
Qed.

Lemma string_app_empty_r (s : string) : s ++ "" = s.
Proof. induction s as [|c s IH]; simpl; congruence. Qed.

Lemma substring_split s i :
  i <= String.length s -> substring 0 i s ++ substring i (String.length s - i) s = s.
Proof.
  revert i. induction s as [|c s IH]; intros [|i] Hi; simpl in *; try lia; try reflexivity.
  - f_equal. clear IH Hi. induction s as [|c' s IH']; simpl; congruence.
  - f_equal. apply IH. lia.
Qed.

(** [p.stem + p.suffix == p.name]: pathlib splits a name at its last inner dot. *)
Lemma py_stem_suffix name : py_stem name ++ py_suffix name = name.
Proof.
  unfold py_stem, py_suffix, inner_dot.
  destruct (rfind "." name) as [i|]; [|apply string_app_empty_r].
  destruct (Nat.ltb 0 i && Nat.ltb i (String.length name - 1)) eqn:E;
    [|apply string_app_empty_r].
  apply andb_true_iff in E as [_ E]. apply Nat.ltb_lt in E.
  apply substring_split. lia.
Qed.

Lemma path_eqb_true p q : path_eqb p q = true -> p = q.
Proof. unfold path_eqb. destruct (list_eq_dec string_dec p q); congruence. Qed.

(** On a file system where [str(path)] tells entries apart, opening
    [str(p)] reaches the node that [stat(p)] reaches. *)
Lemma fs_open_lookup fs p n :
  NoDup (map (fun e => py_str (fst e)) (fs_entries fs)) ->
  fs_lookup fs p = Some n -> fs_open fs (py_str p) = Some n.
Proof.
  unfold fs_lookup, fs_open. intros Hnd Hl.
  destruct (find (fun e => path_eqb (fst e) p) (fs_entries fs)) as [[p' n']|] eqn:Hf;
    [|discriminate].
  simpl in Hl. inversion Hl; subst n'.
  apply find_some in Hf as [Hin Hp]. apply path_eqb_true in Hp. simpl in Hp; subst p'.
  rewrite (find_unique_key (fun e => py_str (fst e)) _ _ (p, n) Hnd Hin).
  - reflexivity.
  - apply String.eqb_refl.
  - intros y _ Hy. now apply String.eqb_eq in Hy.
Qed.

(** ** Lemmas: well-formed trees *)

Lemma nodup_strings_NoDup l : nodup_strings l = true -> NoDup l.
Proof.
  induction l as [|x l IH]; simpl; intros H; [constructor|].
  apply andb_true_iff in H as [Hx Hl]. apply negb_true_iff, py_in_false in Hx.
  constructor; auto.
Qed.

Lemma name_ok_spec nm : name_ok nm = true -> slash_free nm = true /\ nm <> "".
Proof.
  unfold name_ok. intros H. apply andb_true_iff in H as [Hne Hs].
  split; [exact Hs|]. intros ->. discriminate.
Qed.

Lemma tree_wfb_name n : tree_wfb n = true -> name_ok (node_name n) = true.
Proof.
  destruct n; simpl; [auto|]. intros H. now apply andb_true_iff in H as [H _]; apply andb_true_iff in H as [H _].
Qed.

Lemma tree_wfb_dir nm t cs :
  tree_wfb (DirNode nm t cs) = true ->
  NoDup (map node_name cs) /\ Forall (fun c => tree_wfb c = true) cs.
Proof.
  simpl. intros H. apply andb_true_iff in H as [H Hall]. apply andb_true_iff in H as [_ Hnd].
  split; [now apply nodup_strings_NoDup | now apply Forall_forall, forallb_forall].
Qed.

Lemma slash_free_app_slash a r : slash_free (a ++ String "/" r) = false.
Proof. induction a as [|c a IH]; simpl; [reflexivity|]. now rewrite IH, andb_false_r. Qed.

Lemma app_slash_inj a b r1 r2 :
  slash_free a = true -> slash_free b = true ->
  a ++ String "/" r1 = b ++ String "/" r2 -> a = b /\ r1 = r2.
Proof.
  revert b. induction a as [|c a IH]; intros [|d b] Ha Hb H; simpl in *.
  - inversion H. auto.
  - inversion H; subst. discriminate.
  - inversion H; subst. discriminate.
  - inversion H; subst. apply andb_true_iff in Ha as [_ Ha]. apply andb_true_iff in Hb as [_ Hb].
    destruct (IH b Ha Hb H2) as [-> ->]. auto.
Qed.

Local Open Scope list_scope.

Lemma py_str_cons2 a b p : py_str (a :: b :: p) = (a ++ String "/" (py_str (b :: p)))%string.
Proof. reflexivity. Qed.

(** [str(path)] is injective on paths made of file names. *)
Lemma py_str_inj p q :
  Forall (fun x => name_ok x = true) p -> Forall (fun x => name_ok x = true) q ->
  py_str p = py_str q -> p = q.
Proof.
  revert q. induction p as [|a p IH]; intros q Hp Hq H.
  - destruct q as [|b [|b2 q]]; [reflexivity| |]; inversion Hq as [|? ? Hb];
      destruct (name_ok_spec _ Hb) as [_ Hne]; simpl in H.
    + now contradiction Hne.
    + destruct b; [contradiction | discriminate].
  - inversion Hp as [|? ? Ha Hp']; subst. destruct (name_ok_spec _ Ha) as [Hsa Hna].
    destruct q as [|b q].
    + destruct p as [|a2 p]; simpl in H; [contradiction|]. destruct a; [contradiction|discriminate].
    + inversion Hq as [|? ? Hb Hq']; subst. destruct (name_ok_spec _ Hb) as [Hsb Hnb].
      destruct p as [|a2 p], q as [|b2 q].
      * unfold py_str in H; simpl in H. now rewrite H.
      * rewrite py_str_cons2 in H. unfold py_str at 1 in H; simpl in H. subst a. now rewrite slash_free_app_slash in Hsa.
      * rewrite py_str_cons2 in H. symmetry in H; unfold py_str at 1 in H; simpl in H. subst b. now rewrite slash_free_app_slash in Hsb.
      * rewrite !py_str_cons2 in H. destruct (app_slash_inj _ _ _ _ Hsa Hsb H) as [-> Hr].
        f_equal. now apply IH.
Qed.

Definition names_ok (p : py_path) : Prop := Forall (fun x => name_ok x = true) p.

(** Every path the scan yields extends the start path by at least one
    component, and by names only when the tree is well formed. *)
Lemma rglob_shape p n q m :
  In (q, m) (rglob p n) ->
  exists a r, q = p ++ a :: r /\ (tree_wfb n = true -> names_ok (a :: r)).
Proof.
  revert p q m. induction n as [nm t data|nm t cs IH] using fnode_ind_deep;
    intros p q m Hin; simpl in Hin; [contradiction|].
  apply in_app_or in Hin as [Hin|Hin].
  - apply in_map_iff in Hin as [c [Heq Hc]]. injection Heq as <- <-.
    exists (node_name c), []. split; [reflexivity|]. intros Hwf.
    destruct (tree_wfb_dir _ _ _ Hwf) as [_ Hall]. rewrite Forall_forall in Hall.
    constructor; [apply tree_wfb_name; auto | constructor].
  - apply in_concat in Hin as [l [Hl Hin]]. apply in_map_iff in Hl as [c [<- Hc]].
    rewrite Forall_forall in IH.
    destruct (IH c Hc _ _ _ Hin) as (a & r & -> & Hok).
    exists (node_name c), (a :: r). split; [now rewrite <- app_assoc|]. intros Hwf.
    destruct (tree_wfb_dir _ _ _ Hwf) as [_ Hall]. rewrite Forall_forall in Hall.
    constructor; [apply tree_wfb_name | apply Hok]; auto.
Qed.

Lemma rglob_fst_shape p n q :
  In q (map fst (rglob p n)) -> exists a r, q = p ++ a :: r.
Proof.
  intros Hin. apply in_map_iff in Hin as [[q' m] [<- Hin]].
  destruct (rglob_shape _ _ _ _ Hin) as (a & r & -> & _). now exists a, r.
Qed.

Lemma app_cons_inj (p r1 r2 : py_path) a b : p ++ a :: r1 = p ++ b :: r2 -> a = b.
Proof. intros H. apply app_inv_head in H. now inversion H. Qed.

(** Sibling subtrees, having distinct names, yield disjoint paths. *)
Lemma rglob_siblings_disjoint p cs :
  NoDup (map node_name cs) ->
  ForallOrdPairs (fun l1 l2 => forall x, In x l1 -> ~ In x l2)
    (map (fun c => map fst (rglob (p ++ [node_name c]) c)) cs).
Proof.
  induction cs as [|c cs IH]; simpl; intros Hnd; constructor.
  - inversion Hnd as [|? ? Hc Hnd']; subst. apply Forall_map, Forall_forall.
    intros c' Hc' x Hx Hx'.
    destruct (rglob_fst_shape _ _ _ Hx) as (a & r & ->).
    destruct (rglob_fst_shape _ _ _ Hx') as (a' & r' & Heq).
    rewrite <- !app_assoc in Heq. apply app_cons_inj in Heq.
    apply Hc. rewrite Heq. now apply in_map.
  - apply IH. now inversion Hnd.
Qed.

(** On a well-formed tree the scan never yields a path twice. *)
Lemma rglob_NoDup p n : tree_wfb n = true -> NoDup (map fst (rglob p n)).
Proof.
  revert p. induction n as [nm t data|nm t cs IH] using fnode_ind_deep;
    intros p Hwf; simpl; [constructor|].
  destruct (tree_wfb_dir _ _ _ Hwf) as [Hnames Hall].
  rewrite map_app, concat_map, !map_map. simpl. apply NoDup_app.
  - rewrite <- (map_map node_name (fun a => p ++ [a])).
    apply NoDup_map_NoDup_ForallPairs; [|exact Hnames].
    intros x y _ _ Heq. now apply app_cons_inj in Heq.
  - apply NoDup_concat.
    + apply Forall_map. rewrite Forall_forall in IH, Hall |- *. intros c Hc. auto.
    + apply rglob_siblings_disjoint, Hnames.
  - intros x Hx Hx'. apply in_map_iff in Hx as [c [<- _]].
    apply in_concat in Hx' as [l [Hl Hin]]. apply in_map_iff in Hl as [c' [<- _]].
    destruct (rglob_fst_shape _ _ _ Hin) as (a & r & Heq).
    apply (f_equal (@length _)) in Heq. rewrite !length_app in Heq. simpl in Heq. lia.
Qed.

Lemma fs_entries_names_ok fs q m :
  fsys_wfb fs = true -> In (q, m) (fs_entries fs) -> names_ok q.
Proof.
  unfold fsys_wfb, fs_entries, names_ok. intros Hwf Hin.
  apply andb_true_iff in Hwf as [Hroot Htree].
  destruct (rglob_shape _ _ _ _ Hin) as (a & r & -> & Hok).
  apply Forall_app. split; [apply Forall_forall, forallb_forall, Hroot | apply Hok, Htree].
Qed.

(** The scan's path strings are pairwise distinct on a well-formed file system. *)
Lemma fs_entries_str_NoDup fs :
  fsys_wfb fs = true -> NoDup (map (fun e => py_str (fst e)) (fs_entries fs)).
Proof.
  intros Hwf. rewrite <- (map_map fst py_str).
  apply NoDup_map_NoDup_ForallPairs.
  - intros x y Hx Hy Heq.
    apply in_map_iff in Hx as [[x' mx] [<- Hx]]. apply in_map_iff in Hy as [[y' my] [<- Hy]].
    apply py_str_inj; [exact (fs_entries_names_ok _ _ _ Hwf Hx)
                      | exact (fs_entries_names_ok _ _ _ Hwf Hy) | exact Heq].
  - apply rglob_NoDup. unfold fsys_wfb in Hwf. now apply andb_true_iff in Hwf.
Qed.

