(* ===== verification/Catalog.v ===== *)
(** * Catalog: the file catalog of [src/memery/loader.py] (lines 16-35)

    [hash_path], [get_image_files], [get_valid_images] and [verify_image].
    PIL's [Image.open(f).verify()] is an external collaborator: the class
    [Pil] gives its verdict on a file's bytes. *)
From S2P Require Import Prelude PyPath.
Local Open Scope string_scope.
Local Open Scope memery_scope.

(** PIL's decoder: [Image.open(f); img.verify()] succeeds on these bytes. *)
Class Pil : Type := { pil_verify : blob -> bool }.

(** ** Definitions *)

(** [hash_path(filepath)] (l.17-18): the stem of the name, an underscore and
    the integer part of [str(st_mtime)]; [n] is the node [stat] reaches. *)
Definition hash_path (filepath : py_path) (n : fnode) : string :=
  py_stem (py_name filepath) ++ "_" ++ split_dot0 (node_mtime n).

(** The set literal [img_extensions] (l.21). *)
Definition img_extensions : list string :=
  [".jpg"; ".jpeg"; ".png"; ".ppm"; ".bmp"; ".pgm"; ".tif"; ".tiff"; ".webp"].

(** [get_image_files(path)] (l.20-22): every [rglob] entry whose suffix is
    an image extension, directories included, with its hash. *)
Definition get_image_files (fs : fsys) : list (py_path * string) :=
  map (fun e => (fst e, hash_path (fst e) (snd e)))
      (filter (fun e => py_in (py_suffix (py_name (fst e))) img_extensions) (fs_entries fs)).

Section WithPil.
Context `{Pil}.

(** [verify_image(f)] (l.28-35): [True] when PIL opens and verifies the
    file; every exception (a missing path, a directory, bad bytes) is
    caught and the function falls off its end, returning the falsy [None]. *)
Definition verify_image (fs : fsys) (f : py_path) : bool :=
  match fs_lookup fs f with
  | Some (FileNode _ _ data) => pil_verify data
  | _ => false
  end.

(** [get_valid_images(path)] (l.24-26). *)
Definition get_valid_images (fs : fsys) : list (py_path * string) :=
  filter (fun f => verify_image fs (fst f)) (get_image_files fs).

End WithPil.

(** ** Theorems *)

(** [get_image_files] lists exactly the scanned entries whose suffix is
    one of [img_extensions], each paired with the [hash_path] of its node. *)
Theorem get_image_files_spec (fs : fsys) (p : py_path) (h : string) :
  In (p, h) (get_image_files fs) <->
  exists n, In (p, n) (fs_entries fs)
            /\ In (py_suffix (py_name p)) img_extensions
            /\ h = hash_path p n.
Proof.
  unfold get_image_files. rewrite in_map_iff. split.
  - intros [[p' n] [Heq Hin]]. simpl in Heq. inversion Heq; subst.
    apply filter_In in Hin as [Hin Hsuf]. py_bool. eauto.
  - intros [n [Hin [Hsuf ->]]]. exists (p, n). split; [reflexivity|].
    apply filter_In. split; [exact Hin|]. apply py_in_iff. exact Hsuf.
Qed.

(** The identity key has one-second resolution: a node whose
    [str(st_mtime)] is ["<secs>.<frac>"] gets the key ["<stem>_<secs>"],
    whatever the fraction. *)
Theorem hash_path_seconds (p : py_path) (n : fnode) (secs frac : string) :
  dot_free secs = true ->
  node_mtime n = secs ++ String "." frac ->
  hash_path p n = py_stem (py_name p) ++ "_" ++ secs.
Proof. intros Hs Hm. unfold hash_path. rewrite Hm, split_dot0_app_dot by exact Hs. reflexivity. Qed.

Section WithPil.
Context `{Pil}.

(** [get_valid_images] keeps the catalogued files that PIL verifies. *)
Theorem get_valid_images_spec (fs : fsys) (p : py_path) (h : string) :
  In (p, h) (get_valid_images fs) <-> In (p, h) (get_image_files fs) /\ verify_image fs p = true.
Proof. unfold get_valid_images. rewrite filter_In. reflexivity. Qed.

(** A verified path names a file whose bytes PIL accepts. *)
Lemma verify_image_file fs p :
  verify_image fs p = true ->
  exists nm t data, fs_lookup fs p = Some (FileNode nm t data) /\ pil_verify data = true.
Proof.
  unfold verify_image. destruct (fs_lookup fs p) as [[nm t data|nm t cs]|]; try discriminate.
  eauto.
Qed.

End WithPil.
