(* ===== verification/Archive.v ===== *)
(** * Archive: reconciling the catalog with the saved archive
    ([src/memery/loader.py] lines 37-53)

    The archive [memery.pt] is a dict from an integer index to a record
    [{'hash', 'fpath', 'embed'}]. [db_loader] reads it (or starts empty) and
    [archive_loader] keeps the entries whose hash is still in the catalog and
    lists the catalogued files that must be encoded afresh. *)
From S2P Require Import Prelude PyPath Catalog.
Local Open Scope string_scope.
Local Open Scope memery_scope.

(** An archive entry: [{'hash': h, 'fpath': str(path), 'embed': tensor}].
    The float embedding is kept as an integer vector: the angular order of
    vectors does not change when each is scaled by a positive factor, so a
    common denominator turns rational embeddings into these. *)
Record entry : Type := mk_entry { e_hash : string; e_fpath : string; e_embed : list Z }.

(** The archive dict [db], in insertion order. *)
Definition db : Type := pydict entry.

(** [db_loader(dbpath, device)] (l.48-53): the saved dict when [memery.pt]
    exists ([Some]), an empty dict otherwise. *)
Definition db_loader (saved : option db) : db :=
  match saved with
  | Some d => d
  | None => []
  end.

(** The dict comprehension of l.42,
    [{i: db[item[0]] for i, item in enumerate(db.items()) if item[1]['hash'] in current_hashes}],
    walking [items] from position [i]. *)
Fixpoint archive_comp (d : db) (current_hashes : list string) (items : db) (i : nat)
  : result db :=
  match items with
  | [] => Ok []
  | (k, v) :: rest =>
      if py_in (e_hash v) current_hashes then
        v' <- dict_getitem d k ;;
        rest' <- archive_comp d current_hashes rest (S i) ;;
        Ok ((i, v') :: rest')
      else archive_comp d current_hashes rest (S i)
  end.

Section WithPil.
Context `{Pil}.

(** [archive_loader(filepaths, root, device)] (l.37-46). The new files are
    the catalogued ones whose hash is not in the kept archive and that PIL
    verifies ([and] short-circuits: only those are opened). *)
Definition archive_loader (fs : fsys) (filepaths : list (py_path * string)) (saved : option db)
  : result (db * list (string * string)) :=
  let d := db_loader saved in
  let current_hashes := map snd filepaths in
  archive_db <- archive_comp d current_hashes d 0 ;;
  let archive_hashes := map e_hash (dict_values archive_db) in
  let new_files :=
    map (fun f => (py_str (fst f), snd f))
        (filter (fun f => negb (py_in (snd f) archive_hashes) && verify_image fs (fst f))
                filepaths) in
  Ok (archive_db, new_files).

(** ** The reconciliation contract of the spec (section 4.2) *)

(** What reconciling a catalog [filepaths] with an archive [old] promises:
    no entry of a vanished or changed file survives, every entry whose file
    is still catalogued is reused as it was (its embedding is not
    recomputed), and every verified catalogued file is either reused or
    listed for encoding, never both. *)
Record reconciles (fs : fsys) (filepaths : list (py_path * string)) (old : db)
    (reusable : db) (new_files : list (string * string)) : Prop := {
  rec_no_stale : forall e, In e (dict_values reusable) -> In (e_hash e) (map snd filepaths);
  rec_reused : forall e, In e (dict_values old) -> In (e_hash e) (map snd filepaths) ->
               In e (dict_values reusable);
  rec_from_old : incl (dict_values reusable) (dict_values old);
  rec_fresh : forall s h, In (s, h) new_files -> ~ In h (map e_hash (dict_values reusable));
  rec_new_valid : forall s h, In (s, h) new_files ->
                  exists p, s = py_str p /\ In (p, h) filepaths /\ verify_image fs p = true;
  rec_cover : forall p h, In (p, h) filepaths -> verify_image fs p = true ->
              In h (map e_hash (dict_values reusable)) \/ In (py_str p, h) new_files;
  rec_dict : dict_wf reusable
}.

End WithPil.

(** ** The comprehension of l.42 *)

(** Every key the comprehension reads was taken from [db.items()], so
    [db[item[0]]] never raises. *)
Lemma archive_comp_total (d : db) cur (items : db) i :
  incl items d -> exists r, archive_comp d cur items i = Ok r.
Proof.
  revert i. induction items as [|[k v] items IH]; intros i Hincl; simpl; [eauto|].
  assert (Hrest : incl items d) by (intros x Hx; apply Hincl; now right).
  destruct (py_in (e_hash v) cur); [|now apply IH].
  destruct (dict_get_In_Some d k v (Hincl _ (or_introl eq_refl))) as [v' Hv'].
  unfold dict_getitem. rewrite Hv'. simpl.
  destruct (IH (S i) Hrest) as [r Hr]. rewrite Hr. simpl. eauto.
Qed.

(** On a dict (keys unique), [db[item[0]]] is [item[1]]: the comprehension
    is [enumerate] followed by the hash filter. *)
Lemma archive_comp_filter (d : db) cur (items : db) i :
  dict_wf d -> incl items d ->
  archive_comp d cur items i
  = Ok (filter (fun kv => py_in (e_hash (snd kv)) cur) (enumerate i (dict_values items))).
Proof.
  intros Hwf. revert i. induction items as [|[k v] items IH]; intros i Hincl; simpl; [reflexivity|].
  assert (Hrest : incl items d) by (intros x Hx; apply Hincl; now right).
  destruct (py_in (e_hash v) cur); [|now apply IH].
  unfold dict_getitem. rewrite (dict_get_In d k v Hwf (Hincl _ (or_introl eq_refl))). simpl.
  rewrite IH by exact Hrest. reflexivity.
Qed.

Section WithPil.
Context `{Pil}.

(** [archive_loader] in closed form, on a saved archive that is a dict. *)
Lemma archive_loader_eq fs filepaths saved :
  dict_wf (db_loader saved) ->
  archive_loader fs filepaths saved =
  let d := db_loader saved in
  let cur := map snd filepaths in
  let kept := filter (fun kv => py_in (e_hash (snd kv)) cur) (enumerate 0 (dict_values d)) in
  Ok (kept,
      map (fun f => (py_str (fst f), snd f))
          (filter (fun f => negb (py_in (snd f) (map e_hash (dict_values kept)))
                            && verify_image fs (fst f)) filepaths)).
Proof.
  intros Hwf. unfold archive_loader.
  rewrite (archive_comp_filter _ _ _ _ Hwf (incl_refl _)). reflexivity.
Qed.

(** The values [archive_loader] keeps: the old entries whose hash is catalogued. *)
Lemma kept_values (d : db) cur :
  dict_values (filter (fun kv => py_in (e_hash (snd kv)) cur) (enumerate 0 (dict_values d)))
  = filter (fun v => py_in (e_hash v) cur) (dict_values d).
Proof. apply (filter_enumerate_values (fun v => py_in (e_hash v) cur)). Qed.

Lemma archive_loader_contract fs filepaths saved :
  dict_wf (db_loader saved) ->
  exists reusable new_files,
    archive_loader fs filepaths saved = Ok (reusable, new_files)
    /\ reconciles fs filepaths (db_loader saved) reusable new_files.
Proof.
  intros Hwf. rewrite archive_loader_eq by exact Hwf. cbv zeta.
  do 2 eexists. split; [reflexivity|].
  pose proof (kept_values (db_loader saved) (map snd filepaths)) as Hv.
  constructor.
  - intros e He. rewrite Hv, filter_In in He. destruct He as [_ He]. now py_bool.
  - intros e He Hc. rewrite Hv, filter_In. split; [exact He | now py_bool].
  - rewrite Hv. intros e He. apply filter_In in He. tauto.
  - intros s h Hin. apply in_map_iff in Hin as [[p h'] [Heq Hin]].
    inversion Heq; subst. apply filter_In in Hin as [_ Hb]. now py_bool.
  - intros s h Hin. apply in_map_iff in Hin as [[p h'] [Heq Hin]].
    inversion Heq; subst. apply filter_In in Hin as [Hin Hb]. py_bool. eauto.
  - intros p h Hin Hver.
    destruct (py_in h (map e_hash (dict_values (filter (fun kv => py_in (e_hash (snd kv))
                (map snd filepaths)) (enumerate 0 (dict_values (db_loader saved))))))) eqn:E.
    + left. now py_bool.
    + right. apply in_map_iff. exists (p, h). split; [reflexivity|].
      apply filter_In. split; [exact Hin|]. simpl. now rewrite E, Hver.
  - apply dict_wf_filter, dict_wf_enumerate.
Qed.

(** C2: [archive_loader] returns (it never raises) and its result meets the
    reconciliation contract of the spec: no stale entry, no reusable entry
    dropped, embeddings reused as saved, every verified catalogued file
    either reused or listed for encoding and never both. *)
Theorem archive_loader_reconciles fs filepaths saved :
  dict_wf (db_loader saved) ->
  exists reusable new_files,
    archive_loader fs filepaths saved = Ok (reusable, new_files)
    /\ reconciles fs filepaths (db_loader saved) reusable new_files.
Proof. apply archive_loader_contract. Qed.

(** The [db[item[0]]] lookup of l.42 never raises [KeyError]: whatever
    the saved archive holds, [archive_loader] returns. *)
Theorem archive_loader_total fs filepaths saved :
  exists reusable new_files, archive_loader fs filepaths saved = Ok (reusable, new_files).
Proof.
  unfold archive_loader.
  destruct (archive_comp_total (db_loader saved) (map snd filepaths) (db_loader saved) 0
              (incl_refl _)) as [r Hr].
  rewrite Hr. simpl. eauto.
Qed.

(** C20: on a dict with distinct keys the comprehension of l.42 equals
    a filter of [enumerate(db.values())] by hash: [db[item[0]]] is
    [item[1]], and an entry that is kept gets its position in the old
    archive, skipped entries counted, as its key. *)
Theorem archive_comp_equiv (d : db) current_hashes :
  dict_wf d ->
  archive_comp d current_hashes d 0
  = Ok (filter (fun kv => py_in (e_hash (snd kv)) current_hashes) (enumerate 0 (dict_values d))).
Proof. intros Hwf. apply archive_comp_filter; [exact Hwf | apply incl_refl]. Qed.

(** C19: the reconciliation does not depend on the order in which the scan
    lists the files (the spec leaves [rglob]'s order unspecified): a
    permuted catalog keeps the same archive entries, in the same order and
    with the same keys, and lists the same new files, permuted alike. *)
Theorem archive_loader_scan_order fs filepaths filepaths' saved :
  dict_wf (db_loader saved) -> Permutation filepaths filepaths' ->
  exists reusable new_files new_files',
    archive_loader fs filepaths saved = Ok (reusable, new_files)
    /\ archive_loader fs filepaths' saved = Ok (reusable, new_files')
    /\ Permutation new_files new_files'.
Proof.
  intros Hwf Hp. rewrite !archive_loader_eq by exact Hwf. cbv zeta.
  assert (Hc : Permutation (map snd filepaths) (map snd filepaths')) by now apply Permutation_map.
  rewrite (filter_ext_in (fun kv => py_in (e_hash (snd kv)) (map snd filepaths'))
                         (fun kv => py_in (e_hash (snd kv)) (map snd filepaths)))
    by (intros kv _; symmetry; apply py_in_perm, Hc).
  do 3 eexists. split; [reflexivity|]. split; [reflexivity|].
  apply Permutation_map, Permutation_filter_bool, Hp.
Qed.

End WithPil.
