(* ===== verification/Merger.v ===== *)
(** * Merger: joining reused and new embeddings into the next archive
    ([indexer.join_all], called at [src/memery/core.py] l.27)

    [memery/indexer.py] is not among the sources: [join_all] is modelled
    from the spec (section 4.3). The reused entries come first in their
    order in [archive_db], then one entry per new file, in order, with the
    embedding the encoder returned at the same position; the keys are
    renumbered densely from 0. *)
From S2P Require Import Prelude PyPath Catalog Archive.
Local Open Scope memery_scope.

(** The entry of a new file [(path, hash)] and its embedding. *)
Definition new_entry (file : string * string) (embed : list Z) : entry :=
  mk_entry (snd file) (fst file) embed.

(** [join_all(archive_db, new_files, new_embeddings)] *)
Definition join_all (archive_db : db) (new_files : list (string * string))
    (new_embeddings : list (list Z)) : db :=
  enumerate 0 (dict_values archive_db
               ++ map (fun fe => new_entry (fst fe) (snd fe)) (combine new_files new_embeddings)).

(** ** Theorems *)

(** The merged archive is indexed densely: its keys are exactly
    [0, 1, ..., N - 1] in order, with [N = |archive_db| + |new_files|] when
    the encoder returned one embedding per new file. *)
Theorem join_all_dense archive_db new_files new_embeddings :
  length new_embeddings = length new_files ->
  map fst (join_all archive_db new_files new_embeddings)
  = seq 0 (length archive_db + length new_files).
Proof.
  intros Hlen. unfold join_all. rewrite enumerate_keys, length_app, length_map, length_combine.
  unfold dict_values. rewrite length_map, Hlen, Nat.min_id. reflexivity.
Qed.

(** Merging never recomputes an embedding: the merged values are the
    reused entries unchanged, followed by the new files with their
    embeddings, in order. *)
Theorem join_all_values archive_db new_files new_embeddings :
  dict_values (join_all archive_db new_files new_embeddings)
  = dict_values archive_db
    ++ map (fun fe => new_entry (fst fe) (snd fe)) (combine new_files new_embeddings).
Proof. unfold join_all. apply enumerate_values. Qed.

Lemma join_all_wf archive_db new_files new_embeddings :
  dict_wf (join_all archive_db new_files new_embeddings).
Proof. apply dict_wf_enumerate. Qed.
#[export] Hint Resolve join_all_wf : memery.

(** The hashes of the merged archive: the reused ones, then the new files'. *)
Lemma join_all_hashes archive_db new_files new_embeddings :
  length new_embeddings = length new_files ->
  map e_hash (dict_values (join_all archive_db new_files new_embeddings))
  = map e_hash (dict_values archive_db) ++ map snd new_files.
Proof.
  intros Hlen. rewrite join_all_values, map_app, map_map. f_equal.
  rewrite <- (map_fst_combine new_files new_embeddings) at 2 by congruence.
  now rewrite map_map.
Qed.
