(* ===== verification/Index.v ===== *)
(** * Index: the Annoy spatial index and the ranking
    ([loader.treemap_loader], [src/memery/loader.py] l.55-62; [indexer.build_treemap],
    [ranker.ranker] and [ranker.nns_to_files], modelled from the spec,
    sections 4.4 and 4.5)

    An [AnnoyIndex(512, 'angular')] is modelled exactly: item [i] is the
    [i]-th vector and a query returns every item, nearest first under the
    angular distance [sqrt(2 - 2 cos)]. The order compares cosines without
    square roots: [cos(q, u)] is ordered as [d |d| / |u|^2] with
    [d = q . u], the positive factor [|q|^2] left out. *)
From S2P Require Import Prelude PyPath Catalog Archive Merger.
From Stdlib Require Import Sorted.
Local Open Scope memery_scope.
Local Open Scope Z_scope.

(** The dimension passed to [AnnoyIndex] (loader.py l.56). *)
Definition annoy_dim : nat := 512.

(** A loaded or built index: its dimension and its items by number. *)
Record annoy : Type := mk_annoy { ann_f : nat; ann_items : list (list Z) }.

(** [treemap_loader(treepath)] (l.55-62): a fresh [AnnoyIndex(512, 'angular')]
    loaded from [memery.ann] when that file exists, [None] otherwise. The
    saved file is the list of item vectors. *)
Definition treemap_loader (saved : option (list (list Z))) : option annoy :=
  match saved with
  | Some items => Some (mk_annoy annoy_dim items)
  | None => None
  end.

(** ** Building (spec 4.4) *)

(** [treemap.add_item(i, db[i]['embed'])] for each [i] of [ks]; a missing
    index or a vector of the wrong dimension aborts the build. *)
Fixpoint add_items (d : db) (ks : list nat) : result (list (list Z)) :=
  match ks with
  | [] => Ok []
  | k :: ks' =>
      match dict_get d k with
      | None => Raise (AnnoyError "missing index")
      | Some e =>
          if Nat.eqb (length (e_embed e)) annoy_dim then
            rest <- add_items d ks' ;; Ok (e_embed e :: rest)
          else Raise (AnnoyError "dimension mismatch")
      end
  end.

(** [build_treemap(db)]: items [0 .. len(db) - 1], then [build]. *)
Definition build_treemap (d : db) : result annoy :=
  items <- add_items d (seq 0 (length d)) ;;
  Ok (mk_annoy annoy_dim items).

(** ** Angular order *)

Fixpoint dot (u v : list Z) : Z :=
  match u, v with
  | x :: u', y :: v' => x * y + dot u' v'
  | _, _ => 0
  end.

Definition norm2 (u : list Z) : Z := dot u u.

(** The key of item [u] for query [q], as a fraction [(num, den)] with
    [den > 0]; a zero vector gets key 0. A larger key is a smaller angle. *)
Definition angular_key (q u : list Z) : Z * Z :=
  let d := dot q u in
  if norm2 u =? 0 then (0, 1) else (d * Z.abs d, norm2 u).

(** [key_le k1 k2]: [k1 <= k2] as fractions. *)
Definition key_le (k1 k2 : Z * Z) : bool := fst k1 * snd k2 <=? fst k2 * snd k1.

(** [key_eqb k1 k2]: equal as fractions: the same angular distance. *)
Definition key_eqb (k1 k2 : Z * Z) : bool := key_le k1 k2 && key_le k2 k1.

(** ** Ranking (spec 4.5) *)

(** Insert item [i] before the first item that is not nearer than it. *)
Fixpoint insert_by (key : nat -> Z * Z) (i : nat) (l : list nat) : list nat :=
  match l with
  | [] => [i]
  | j :: l' => if key_le (key j) (key i) then i :: l else j :: insert_by key i l'
  end.

Definition sort_by (key : nat -> Z * Z) (l : list nat) : list nat :=
  fold_right (insert_by key) [] l.

Definition item_key (q : list Z) (t : annoy) (i : nat) : Z * Z :=
  angular_key q (nth i (ann_items t) []).

(** [ranker(query_vec, treemap)]:
    [treemap.get_nns_by_vector(query_vec, treemap.get_n_items())]. *)
Definition ranker (query_vec : list Z) (t : annoy) : list nat :=
  sort_by (item_key query_vec t) (seq 0 (length (ann_items t))).

(** [nns_to_files(db, indexes)]: the path of each index, in order, an index
    missing from the archive dropped. *)
Definition nns_to_files (d : db) (indexes : list nat) : list string :=
  flat_map (fun i => match dict_get d i with Some e => [e_fpath e] | None => [] end) indexes.

(** [nearer key i j]: item [i] is at least as near as item [j]. *)
Definition nearer (key : nat -> Z * Z) (i j : nat) : Prop := key_le (key j) (key i) = true.

(** ** Lemmas: Cauchy-Schwarz and the angular order *)

Lemma norm2_cons x u : norm2 (x :: u) = x * x + norm2 u.
Proof. reflexivity. Qed.

Lemma norm2_nonneg u : 0 <= norm2 u.
Proof. induction u as [|x u IH]; [reflexivity|]. rewrite norm2_cons. nia. Qed.

(** [2 x y (u . v) <= x^2 |v|^2 + y^2 |u|^2], the cross term of Lagrange's identity. *)
Lemma dot_cross x y u v : 2 * x * y * dot u v <= x * x * norm2 v + y * y * norm2 u.
Proof.
  revert v. induction u as [|a u IH]; intros [|b v]; simpl dot; rewrite ?norm2_cons.
  - change (norm2 []) with 0. nia.
  - pose proof (norm2_nonneg v). change (norm2 []) with 0. nia.
  - pose proof (norm2_nonneg u). change (norm2 []) with 0. nia.
  - specialize (IH v). pose proof (Z.square_nonneg (x * b - y * a)). nia.
Qed.

(** Cauchy-Schwarz: [(u . v)^2 <= |u|^2 |v|^2]. *)
Lemma cauchy_schwarz u v : dot u v * dot u v <= norm2 u * norm2 v.
Proof.
  revert v. induction u as [|a u IH]; intros [|b v]; simpl dot; rewrite ?norm2_cons.
  - change (norm2 []) with 0. nia.
  - pose proof (norm2_nonneg v). change (norm2 []) with 0. nia.
  - pose proof (norm2_nonneg u). change (norm2 []) with 0. nia.
  - specialize (IH v). pose proof (dot_cross a b u v). nia.
Qed.

Lemma angular_key_den_pos q u : 0 < snd (angular_key q u).
Proof.
  unfold angular_key. pose proof (norm2_nonneg u).
  destruct (Z.eqb_spec (norm2 u) 0); simpl; lia.
Qed.

Lemma key_le_total k1 k2 : key_le k1 k2 = true \/ key_le k2 k1 = true.
Proof. unfold key_le. destruct (Z.leb_spec (fst k1 * snd k2) (fst k2 * snd k1)); [auto|]. right. apply Z.leb_le. lia. Qed.

Lemma key_le_trans k1 k2 k3 :
  0 < snd k1 -> 0 < snd k2 -> 0 < snd k3 ->
  key_le k1 k2 = true -> key_le k2 k3 = true -> key_le k1 k3 = true.
Proof.
  destruct k1 as [a b], k2 as [c d], k3 as [e f]. unfold key_le; simpl.
  rewrite !Z.leb_le. intros Hb Hd Hf H12 H23.
  apply (Z.mul_le_mono_pos_r _ _ d Hd). nia.
Qed.

(** The query itself is the nearest vector to the query: no item has a
    larger key than [q] would. *)
Theorem angular_key_self_max q u : key_le (angular_key q u) (angular_key q q) = true.
Proof.
  unfold key_le, angular_key. fold (norm2 q).
  pose proof (cauchy_schwarz q u). pose proof (norm2_nonneg q). pose proof (norm2_nonneg u).
  apply Z.leb_le.
  destruct (Z.eqb_spec (norm2 u) 0), (Z.eqb_spec (norm2 q) 0); simpl; nia.
Qed.

(** ** Lemmas: the ranking sort *)

Section SortBy.
Variable key : nat -> Z * Z.
Hypothesis key_den_pos : forall i, 0 < snd (key i).

Lemma nearer_trans : forall i j k, nearer key i j -> nearer key j k -> nearer key i k.
Proof. intros i j k Hij Hjk. unfold nearer in *. eapply key_le_trans; eauto. Qed.

Lemma insert_by_perm i l : Permutation (insert_by key i l) (i :: l).
Proof.
  induction l as [|j l IH]; simpl; [reflexivity|].
  destruct (key_le (key j) (key i)); [reflexivity|].
  etransitivity; [apply perm_skip, IH | apply perm_swap].
Qed.

Lemma insert_by_hd j i l :
  nearer key j i -> HdRel (nearer key) j l -> HdRel (nearer key) j (insert_by key i l).
Proof.
  intros Hji Hl. destruct l as [|k l]; simpl; [now constructor|].
  destruct (key_le (key k) (key i)); constructor; [exact Hji | now inversion Hl].
Qed.

Lemma insert_by_sorted i l : Sorted (nearer key) l -> Sorted (nearer key) (insert_by key i l).
Proof.
  induction l as [|j l IH]; simpl; intros Hs; [now repeat constructor|].
  destruct (key_le (key j) (key i)) eqn:E.
  - constructor; [exact Hs | now constructor].
  - inversion Hs as [|? ? Hs' Hhd]; subst. constructor; [now apply IH|].
    apply insert_by_hd; [|exact Hhd]. unfold nearer.
    destruct (key_le_total (key i) (key j)) as [H|H]; congruence.
Qed.

Lemma sort_by_perm l : Permutation (sort_by key l) l.
Proof.
  induction l as [|i l IH]; simpl; [reflexivity|].
  rewrite insert_by_perm. now apply perm_skip.
Qed.

Lemma sort_by_sorted l : StronglySorted (nearer key) (sort_by key l).
Proof.
  apply Sorted_StronglySorted; [exact nearer_trans|].
  induction l as [|i l IH]; simpl; [constructor|]. now apply insert_by_sorted.
Qed.

(** Inserting [i] keeps, in front of it, only items strictly nearer. *)
Lemma insert_by_filter (P : nat -> bool) i l :
  (forall j, P j = true -> P i = true -> key_le (key j) (key i) = true) ->
  filter P (insert_by key i l) = if P i then i :: filter P l else filter P l.
Proof.
  intros HP. induction l as [|j l IH]; simpl; [now destruct (P i)|].
  destruct (key_le (key j) (key i)) eqn:Hji; simpl; [now destruct (P i)|].
  destruct (P j) eqn:Hj, (P i) eqn:Hi; rewrite IH; try reflexivity.
  rewrite (HP j Hj eq_refl) in Hji. discriminate.
Qed.

(** The sort is stable: the items of one key class keep their order. *)
Lemma sort_by_stable k l :
  0 < snd k ->
  filter (fun i => key_eqb (key i) k) (sort_by key l) = filter (fun i => key_eqb (key i) k) l.
Proof.
  intros Hk. induction l as [|i l IH]; [reflexivity|]. unfold sort_by. simpl. fold (sort_by key l).
  rewrite insert_by_filter, IH; [reflexivity|].
  unfold key_eqb. intros j Hj Hi. apply andb_true_iff in Hj as [Hj _]. apply andb_true_iff in Hi as [_ Hi].
  eapply key_le_trans; eauto.
Qed.

End SortBy.

(** ** Lemmas: building *)
Local Open Scope nat_scope.

Lemma add_items_seq d k n items :
  add_items d (seq k n) = Ok items ->
  length items = n /\
  forall i, i < n -> exists e, dict_get d (k + i) = Some e
                       /\ nth_error items i = Some (e_embed e)
                       /\ length (e_embed e) = annoy_dim.
Proof.
  revert k items. induction n as [|n IH]; intros k items H; simpl in H.
  - inversion H; subst. split; [reflexivity | intros; lia].
  - destruct (dict_get d k) as [e|] eqn:E; [|discriminate].
    destruct (Nat.eqb_spec (length (e_embed e)) annoy_dim) as [Hdim|]; [|discriminate].
    apply bind_eq_Ok in H as [rest [Hr Hok]]. inversion Hok; subst.
    destruct (IH (S k) rest Hr) as [Hl Hi]. split; [simpl; lia|].
    intros [|i] Hlt.
    + exists e. rewrite Nat.add_0_r. auto.
    + destruct (Hi i) as [e' He']; [lia|]. exists e'.
      replace (k + S i) with (S k + i) by lia. exact He'.
Qed.

Lemma add_items_seq_Ok d k n :
  (forall i, i < n -> exists e, dict_get d (k + i) = Some e /\ length (e_embed e) = annoy_dim) ->
  exists items, add_items d (seq k n) = Ok items.
Proof.
  revert k. induction n as [|n IH]; intros k H; simpl; [eauto|].
  destruct (H 0) as [e [He Hdim]]; [lia|]. rewrite Nat.add_0_r in He. rewrite He.
  rewrite (proj2 (Nat.eqb_eq _ _) Hdim).
  destruct (IH (S k)) as [rest Hr].
  - intros i Hi. replace (S k + i) with (k + S i) by lia. apply H. lia.
  - rewrite Hr. simpl. eauto.
Qed.

Lemma add_items_gap d ks k :
  In k ks -> dict_get d k = None -> exists why, add_items d ks = Raise (AnnoyError why).
Proof.
  induction ks as [|k' ks IH]; simpl; [tauto|]. intros Hin Hk.
  destruct (dict_get d k') as [e|] eqn:E; [|eauto].
  destruct (Nat.eqb (length (e_embed e)) annoy_dim); [|eauto].
  destruct Hin as [->|Hin]; [congruence|].
  destruct (IH Hin Hk) as [why Hwhy]. rewrite Hwhy. simpl. eauto.
Qed.

Lemma add_items_cons_notin d k v ks :
  ~ In k ks -> add_items ((k, v) :: d) ks = add_items d ks.
Proof.
  induction ks as [|k' ks IH]; simpl; intros Hnot; [reflexivity|].
  destruct (Nat.eqb_spec k' k); [tauto|]. now rewrite IH by tauto.
Qed.

Lemma add_items_enumerate vs k :
  Forall (fun e => length (e_embed e) = annoy_dim) vs ->
  add_items (enumerate k vs) (seq k (length vs)) = Ok (map e_embed vs).
Proof.
  revert k. induction vs as [|v vs IH]; intros k Hdims; simpl; [reflexivity|].
  inversion Hdims as [|? ? Hv Hvs]; subst. rewrite Nat.eqb_refl, Hv, Nat.eqb_refl.
  rewrite add_items_cons_notin by (rewrite in_seq; lia). now rewrite IH.
Qed.

(** One embedding of the wrong dimension makes the whole build fail. *)
Lemma add_items_enumerate_bad vs k e :
  In e vs -> length (e_embed e) <> annoy_dim ->
  exists why, add_items (enumerate k vs) (seq k (length vs)) = Raise (AnnoyError why).
Proof.
  revert k. induction vs as [|v vs IH]; intros k Hin Hbad; simpl; [contradiction|].
  rewrite Nat.eqb_refl.
  destruct (Nat.eqb_spec (length (e_embed v)) annoy_dim) as [Hv|Hv]; [|eauto].
  destruct Hin as [->|Hin]; [contradiction|].
  rewrite add_items_cons_notin by (rewrite in_seq; lia).
  destruct (IH (S k) Hin Hbad) as [why Hwhy]. rewrite Hwhy. simpl. eauto.
Qed.

(** A dict whose [n] keys include [0 .. n-1] has no other key. *)
Lemma dense_keys_bound (d : db) :
  dict_wf d -> (forall i, i < length d -> dict_get d i <> None) ->
  forall i, length d <= i -> dict_get d i = None.
Proof.
  intros Hwf Hall i Hi. destruct (dict_get d i) as [e|] eqn:E; [|reflexivity].
  exfalso. apply dict_get_Some_In, (in_map fst) in E. simpl in E.
  assert (Hincl : incl (map fst d) (seq 0 (length d))).
  { apply NoDup_length_incl; [apply seq_NoDup | now rewrite length_seq, length_map |].
    intros k Hk. apply in_seq in Hk. apply in_map_iff.
    destruct (dict_get d k) as [e'|] eqn:Ek; [|exfalso; apply (Hall k); [lia|assumption]].
    exists (k, e'). split; [reflexivity | now apply dict_get_Some_In]. }
  apply Hincl, in_seq in E. lia.
Qed.

(** ** Theorems: building *)

(** Building the index of a densely numbered archive [enumerate 0 vs]. *)
Lemma build_treemap_enumerate vs :
  Forall (fun e => length (e_embed e) = annoy_dim) vs ->
  build_treemap (enumerate 0 vs) = Ok (mk_annoy annoy_dim (map e_embed vs)).
Proof.
  intros Hdims. unfold build_treemap. rewrite length_enumerate, add_items_enumerate by exact Hdims.
  reflexivity.
Qed.

(** A successful build of a densely numbered archive saw only
    512-dimensional embeddings. *)
Lemma build_enumerate_dims vs t :
  build_treemap (enumerate 0 vs) = Ok t ->
  Forall (fun e => length (e_embed e) = annoy_dim) vs.
Proof.
  intros Hb. apply Forall_forall. intros e He.
  destruct (Nat.eq_dec (length (e_embed e)) annoy_dim) as [Hd|Hd]; [exact Hd|].
  destruct (add_items_enumerate_bad vs 0 e He Hd) as [why Hwhy].
  unfold build_treemap in Hb. rewrite length_enumerate, Hwhy in Hb. discriminate.
Qed.

(** A successful build is aligned with the archive: dimension 512, and
    item [i] is the embedding of entry [i] for every [i]. *)
Lemma build_aligned (d : db) (t : annoy) :
  dict_wf d -> build_treemap d = Ok t ->
  ann_f t = annoy_dim /\ forall i, nth_error (ann_items t) i = option_map e_embed (dict_get d i).
Proof.
  intros Hwf Hb. unfold build_treemap in Hb.
  apply bind_eq_Ok in Hb as [items [Hitems Ht]]. inversion Ht; subst. simpl.
  destruct (add_items_seq d 0 (length d) items Hitems) as [Hlen Hall].
  split; [reflexivity|]. intros i.
  destruct (Nat.lt_ge_cases i (length d)) as [Hi|Hi].
  - destruct (Hall i Hi) as [e [He [Hn _]]]. simpl in He. now rewrite He, Hn.
  - rewrite (proj2 (nth_error_None items i)) by lia.
    rewrite (dense_keys_bound d Hwf); [reflexivity| |exact Hi].
    intros k Hk. destruct (Hall k Hk) as [e [He _]]. simpl in He. congruence.
Qed.

(** The build succeeds on an archive whose indices [0 .. len - 1] are all
    present with 512-dimensional embeddings. *)
Theorem build_treemap_ok (d : db) :
  (forall i, i < length d -> exists e, dict_get d i = Some e /\ length (e_embed e) = annoy_dim) ->
  exists t, build_treemap d = Ok t.
Proof.
  intros H. unfold build_treemap.
  destruct (add_items_seq_Ok d 0 (length d) H) as [items Hi]. rewrite Hi. simpl. eauto.
Qed.

(** The build fails loudly, with an Annoy error, when an index below the
    archive's length is missing (a gap in the numbering). *)
Theorem build_treemap_gap (d : db) (i : nat) :
  i < length d -> dict_get d i = None -> exists why, build_treemap d = Raise (AnnoyError why).
Proof.
  intros Hi Hnone. unfold build_treemap.
  destruct (add_items_gap d (seq 0 (length d)) i) as [why Hwhy];
    [apply in_seq; lia | exact Hnone |].
  rewrite Hwhy. simpl. eauto.
Qed.

Lemma nns_to_files_cons_notin d k v idx :
  ~ In k idx -> nns_to_files ((k, v) :: d) idx = nns_to_files d idx.
Proof.
  induction idx as [|k' idx IH]; simpl; intros Hnot; [reflexivity|].
  destruct (Nat.eqb_spec k' k); [tauto|]. now rewrite IH by tauto.
Qed.

Lemma nns_to_files_enumerate vs k :
  nns_to_files (enumerate k vs) (seq k (length vs)) = map e_fpath vs.
Proof.
  revert k. induction vs as [|v vs IH]; intros k; simpl; [reflexivity|].
  rewrite Nat.eqb_refl. simpl. f_equal.
  rewrite nns_to_files_cons_notin by (rewrite in_seq; lia). apply IH.
Qed.

(** An index aligned with a densely numbered archive holds one item per entry. *)
Lemma aligned_items (d : db) (items : list (list Z)) :
  map fst d = seq 0 (length d) ->
  (forall i, nth_error items i = option_map e_embed (dict_get d i)) ->
  items = map e_embed (dict_values d).
Proof.
  intros Hdense Hal. apply nth_error_ext. intros i.
  rewrite Hal, nth_error_map, (dense_enumerate d 0 Hdense).
  rewrite <- (dict_get_enumerate _ 0 i), enumerate_values. reflexivity.
Qed.

(** ** Theorems: ranking *)

Lemma item_key_den_pos q t i : (0 < snd (item_key q t i))%Z.
Proof. apply angular_key_den_pos. Qed.

(** [ranker] returns every item once, each at least as near to the query
    as every later one. *)
Lemma ranker_sorted_perm (q : list Z) (t : annoy) :
  Permutation (ranker q t) (seq 0 (length (ann_items t)))
  /\ StronglySorted (nearer (item_key q t)) (ranker q t).
Proof.
  unfold ranker. split.
  - apply sort_by_perm.
  - apply sort_by_sorted, item_key_den_pos.
Qed.

(** Querying with an item's own embedding ranks first an item at
    angular distance zero from the query (the item itself, or one tied
    with it). *)
Theorem ranker_self_first (q : list Z) (t : annoy) (i : nat) :
  nth_error (ann_items t) i = Some q ->
  exists j rest, ranker q t = j :: rest
                 /\ key_le (angular_key q q) (item_key q t j) = true.
Proof.
  intros Hq. destruct (ranker_sorted_perm q t) as [Hperm Hsorted].
  assert (Hin : In i (ranker q t)).
  { apply (Permutation_in _ (Permutation_sym Hperm)), in_seq.
    assert (i < length (ann_items t)) by (apply nth_error_Some; congruence). lia. }
  assert (Hki : item_key q t i = angular_key q q)
    by (unfold item_key; now rewrite (nth_error_nth _ _ _ Hq)).
  destruct (ranker q t) as [|j rest]; [contradiction|]. exists j, rest. split; [reflexivity|].
  rewrite <- Hki. destruct Hin as [->|Hin].
  - unfold key_le. apply Z.leb_le. lia.
  - inversion Hsorted as [|? ? _ Hall]; subst. exact (proj1 (Forall_forall _ _) Hall i Hin).
Qed.
