(* ===== verification/Flows.v ===== *)
(** * Flows: the two entry points of [src/memery/core.py]

    [index_flow] (l.9-34) scans the root, reconciles it with the saved
    archive, encodes the new files, merges, builds the index and saves both
    files; [query_flow] (l.36-89) loads them, turns the query into a vector,
    ranks and resolves the paths. The persisted state is the [store]: the
    file system under the root and the two files [memery.pt] and
    [memery.ann]. The image and text encoders (crafter, encoder) are the
    class [Clip]. *)
From S2P Require Import Prelude PyPath Catalog Archive Merger Index.
Local Open Scope string_scope.
Local Open Scope memery_scope.

(** The CLIP model behind [crafter] and [encoder]: one vector per input. *)
Class Clip : Type := {
  encode_image : blob -> list Z;        (** [crafter.crafter] then [encoder.image_encoder], per file *)
  encode_text : string -> list Z;       (** [encoder.text_encoder] *)
  encode_query_image : blob -> list Z   (** [crafter.preproc] then [encoder.image_query_encoder] *)
}.

(** The state a run reads and writes: the tree under the root, [memery.pt]
    and [memery.ann] ([None] when the file does not exist). The two files
    live in the root; their suffixes [.pt] and [.ann] are not image
    extensions, so the scan never lists them and they are kept apart. *)
Record store : Type := mk_store {
  st_fs : fsys;
  st_db : option db;
  st_ann : option (list (list Z))
}.

(** The invariant of a saved state (spec section 3): both files exist, the
    archive is numbered densely from 0, and index item [i] is the
    embedding of archive entry [i]. *)
Definition store_inv (s : store) : Prop :=
  exists d items, st_db s = Some d /\ st_ann s = Some items
    /\ map fst d = seq 0 (length d)
    /\ forall i, nth_error items i = option_map e_embed (dict_get d i).

Section WithModels.
Context `{Pil} `{Clip}.

(** [crafter.crafter(new_files, device)]: open each new file by its string
    path; a path that does not open as a file raises. *)
Fixpoint crafter (fs : fsys) (new_files : list (string * string)) : result (list blob) :=
  match new_files with
  | [] => Ok []
  | (path, _) :: rest =>
      match fs_open fs path with
      | Some (FileNode _ _ data) => rest' <- crafter fs rest ;; Ok (data :: rest')
      | _ => Raise (OSError path)
      end
  end.

(** [encoder.image_encoder(crafted_files, device)] *)
Definition image_encoder (crafted_files : list blob) : list (list Z) :=
  map encode_image crafted_files.

(** [indexer.save_archives(root, t, db)]: replace [memery.pt] and
    [memery.ann], return their paths. *)
Definition save_archives (s : store) (t : annoy) (d : db) : store * (string * string) :=
  let root := fs_root (st_fs s) in
  (mk_store (st_fs s) (Some d) (Some (ann_items t)),
   (py_str (root ++ ["memery.pt"])%list, py_str (root ++ ["memery.ann"])%list)).

(** [index_flow(path)] (l.9-34). *)
Definition index_flow (s : store) : result (store * (string * string)) :=
  let filepaths := get_image_files (st_fs s) in
  '(archive_db, new_files) <- archive_loader (st_fs s) filepaths (st_db s) ;;
  crafted_files <- crafter (st_fs s) new_files ;;
  let new_embeddings := image_encoder crafted_files in
  let d := join_all archive_db new_files new_embeddings in
  t <- build_treemap d ;;
  Ok (save_archives s t d).

(** Python truthiness of the [query] argument: [None] and [''] are false. *)
Definition query_truthy (query : option string) : bool :=
  match query with
  | Some q => negb (String.eqb q "")
  | None => false
  end.

(** [text_vec + image_vec]: element-wise sum of two tensors of one shape. *)
Definition vec_add (u v : list Z) : list Z := map (fun xy => (fst xy + snd xy)%Z) (combine u v).

(** l.69-80: the query vector. When neither query is given, the code only
    prints ['No query!'] and [query_vec] is unbound at l.84. *)
Definition query_vector (query : option string) (image_query : option blob) : result (list Z) :=
  match image_query, query with
  | Some img, Some q =>
      if query_truthy query then Ok (vec_add (encode_text q) (encode_query_image img))
      else Ok (encode_query_image img)
  | None, Some q => if query_truthy query then Ok (encode_text q) else Raise (NameError "query_vec")
  | Some img, None => Ok (encode_query_image img)
  | None, None => Raise (NameError "query_vec")
  end.

(** [query_flow(path, query, image_query)] (l.36-89). The scan of l.58 is
    only read by the reindexing check, which is commented out (l.60-65). A
    missing [memery.ann] leaves [treemap = None], and the ranker's call on
    it raises. *)
Definition query_flow (s : store) (query : option string) (image_query : option blob)
  : result (list string) :=
  let d := db_loader (st_db s) in
  let treemap := treemap_loader (st_ann s) in
  let _filepaths := get_image_files (st_fs s) in
  query_vec <- query_vector query image_query ;;
  match treemap with
  | None => Raise (AttributeError "get_nns_by_vector")
  | Some t => Ok (nns_to_files d (ranker query_vec t))
  end.

(** The preconditions of a run that cannot fail: the saved archive is a
    dict of 512-dimensional embeddings, [str(path)] tells the scanned
    entries apart, and the encoder returns 512-dimensional vectors. *)
Definition run_ok (s : store) : Prop :=
  dict_wf (db_loader (st_db s))
  /\ Forall (fun e => length (e_embed e) = annoy_dim) (dict_values (db_loader (st_db s)))
  /\ NoDup (map (fun e => py_str (fst e)) (fs_entries (st_fs s)))
  /\ (forall b, length (encode_image b) = annoy_dim).

(** ** Lemmas *)

Lemma crafter_length fs new_files blobs :
  crafter fs new_files = Ok blobs -> length blobs = length new_files.
Proof.
  revert blobs. induction new_files as [|[path h] rest IH]; simpl; intros blobs Hc.
  - now inversion Hc.
  - destruct (fs_open fs path) as [[nm t data|nm t cs]|]; try discriminate.
    apply bind_eq_Ok in Hc as [rest' [Hr Hok]]. inversion Hok; subst. simpl. f_equal. auto.
Qed.

(** [crafter] reads, for each new file in turn, the bytes its path opens. *)
Lemma crafter_spec fs new_files blobs :
  crafter fs new_files = Ok blobs ->
  Forall2 (fun f b => exists nm t, fs_open fs (fst f) = Some (FileNode nm t b)) new_files blobs.
Proof.
  revert blobs. induction new_files as [|[sp h] rest IH]; simpl; intros blobs Hc.
  - inversion Hc. constructor.
  - destruct (fs_open fs sp) as [[nm t data|nm t cs]|] eqn:Ho; try discriminate.
    apply bind_eq_Ok in Hc as [rest' [Hr Hok]]. inversion Hok; subst.
    constructor; [eauto | auto].
Qed.

Lemma crafter_ok fs new_files :
  (forall sp h, In (sp, h) new_files -> exists nm t data, fs_open fs sp = Some (FileNode nm t data)) ->
  exists blobs, crafter fs new_files = Ok blobs.
Proof.
  induction new_files as [|[sp h] rest IH]; simpl; intros Hall; [eauto|].
  destruct (Hall sp h (or_introl eq_refl)) as (nm & t & data & Ho). rewrite Ho.
  destruct IH as [blobs Hb]; [intros; eapply Hall; eauto|]. rewrite Hb. simpl. eauto.
Qed.

(** A successful [index_flow], step by step. *)
Lemma index_flow_inv s s' paths :
  index_flow s = Ok (s', paths) ->
  exists archive_db new_files blobs t,
    archive_loader (st_fs s) (get_image_files (st_fs s)) (st_db s) = Ok (archive_db, new_files)
    /\ crafter (st_fs s) new_files = Ok blobs
    /\ build_treemap (join_all archive_db new_files (image_encoder blobs)) = Ok t
    /\ (s', paths) = save_archives s t (join_all archive_db new_files (image_encoder blobs)).
Proof.
  unfold index_flow. intros Hrun.
  apply bind_eq_Ok in Hrun as [[a nf] [Hal Hrun]].
  apply bind_eq_Ok in Hrun as [blobs [Hcr Hrun]].
  apply bind_eq_Ok in Hrun as [t [Hb Hrun]]. inversion Hrun.
  exists a, nf, blobs, t. auto.
Qed.

Lemma index_flow_fs s s' paths : index_flow s = Ok (s', paths) -> st_fs s' = st_fs s.
Proof.
  intros Hrun. destruct (index_flow_inv _ _ _ Hrun) as (a & nf & blobs & t & _ & _ & _ & Hs).
  now inversion Hs.
Qed.

Lemma join_all_reenumerate a nf embs :
  enumerate 0 (dict_values (join_all a nf embs)) = join_all a nf embs.
Proof. unfold join_all at 1. now rewrite enumerate_values. Qed.

(** After a run, every hash of the new archive is a hash of the catalog,
    and every verified catalogued file has its hash in the new archive. *)
Lemma index_flow_hashes s s' paths :
  dict_wf (db_loader (st_db s)) -> index_flow s = Ok (s', paths) ->
  exists d, st_db s' = Some d
    /\ (forall h, In h (map e_hash (dict_values d)) -> In h (map snd (get_image_files (st_fs s))))
    /\ (forall p h, In (p, h) (get_image_files (st_fs s)) -> verify_image (st_fs s) p = true ->
                     In h (map e_hash (dict_values d))).
Proof.
  intros Hwf Hrun.
  destruct (index_flow_inv _ _ _ Hrun) as (a & nf & blobs & t & Hal & Hcr & Hb & Hs).
  destruct (archive_loader_contract (st_fs s) (get_image_files (st_fs s)) (st_db s) Hwf)
    as (a' & nf' & Hal' & Hrec).
  rewrite Hal in Hal'. inversion Hal'; subst a' nf'. inversion Hs; subst. clear Hs Hal'.
  assert (Hlen : length (image_encoder blobs) = length nf)
    by (unfold image_encoder; rewrite length_map; eapply crafter_length; eauto).
  eexists. split; [reflexivity|].
  rewrite join_all_hashes by exact Hlen. split.
  - intros h Hh. apply in_app_or in Hh as [Hh|Hh].
    + apply in_map_iff in Hh as [e [<- He]]. now apply (rec_no_stale _ _ _ _ _ Hrec).
    + apply in_map_iff in Hh as [[sp h'] [Heq Hin]]. simpl in Heq; subst h'.
      destruct (rec_new_valid _ _ _ _ _ Hrec sp h Hin) as [p [_ [Hp _]]].
      apply in_map_iff. exists (p, h). auto.
  - intros p h Hin Hver. apply in_or_app.
    destruct (rec_cover _ _ _ _ _ Hrec p h Hin Hver) as [Hh|Hh]; [now left|].
    right. apply in_map_iff. exists (py_str p, h). auto.
Qed.

(** ** Theorems: indexing *)

Lemma index_flow_runs s : run_ok s -> exists s' paths, index_flow s = Ok (s', paths).
Proof.
  intros (Hwf & Hdims & Hfs & Hclip).
  destruct (archive_loader_contract (st_fs s) (get_image_files (st_fs s)) (st_db s) Hwf)
    as (a & nf & Hal & Hrec).
  destruct (crafter_ok (st_fs s) nf) as [blobs Hcr].
  { intros sp h Hin. destruct (rec_new_valid _ _ _ _ _ Hrec sp h Hin) as (p & -> & _ & Hv).
    destruct (verify_image_file _ _ Hv) as (nm & t & data & Hl & _).
    exists nm, t, data. now apply fs_open_lookup. }
  unfold index_flow. rewrite Hal. simpl. rewrite Hcr. simpl.
  unfold join_all. rewrite build_treemap_enumerate; [simpl; do 2 eexists; reflexivity|].
  apply Forall_app. split.
  - apply Forall_forall. intros e He. apply (rec_from_old _ _ _ _ _ Hrec) in He.
    exact (proj1 (Forall_forall _ _) Hdims e He).
  - apply Forall_forall. intros e He. apply in_map_iff in He as [[f v] [<- Hin]].
    apply in_combine_r in Hin. unfold image_encoder in Hin.
    apply in_map_iff in Hin as [b [<- _]]. apply Hclip.
Qed.

(** C1: under [run_ok], [index_flow] returns: the reconciliation, the
    encoding of every new file, the merge and the index build all succeed. *)
Theorem index_flow_ok s : run_ok s -> exists s' paths, index_flow s = Ok (s', paths).
Proof. apply index_flow_runs. Qed.

Lemma index_flow_saves_inv s s' paths : index_flow s = Ok (s', paths) -> store_inv s'.
Proof.
  intros Hrun. destruct (index_flow_inv _ _ _ Hrun) as (a & nf & blobs & t & _ & _ & Hb & Hs).
  inversion Hs; subst. clear Hs.
  destruct (build_aligned _ _ (join_all_wf _ _ _) Hb) as [_ Hal].
  do 2 eexists. split; [reflexivity|]. split; [reflexivity|]. split; [|exact Hal].
  unfold join_all. now rewrite enumerate_keys, length_enumerate.
Qed.

(** C3: every successful [index_flow] leaves a state that satisfies the
    invariant: dense numbering [0 .. N-1] and an index aligned with it. *)
Theorem index_flow_store_inv s s' paths : index_flow s = Ok (s', paths) -> store_inv s'.
Proof. apply index_flow_saves_inv. Qed.

(** C6: deletion propagates: after [index_flow], no archive entry carries a
    hash that no scanned file has (a deleted, renamed or modified file's
    old entry is gone). *)
Theorem index_flow_drops_deleted s s' paths h :
  dict_wf (db_loader (st_db s)) -> index_flow s = Ok (s', paths) ->
  ~ In h (map snd (get_image_files (st_fs s))) ->
  exists d, st_db s' = Some d /\ ~ In h (map e_hash (dict_values d)).
Proof.
  intros Hwf Hrun Hgone.
  destruct (index_flow_hashes _ _ _ Hwf Hrun) as (d & Hd & Hstale & _).
  exists d. split; [exact Hd|]. intros Hin. exact (Hgone (Hstale h Hin)).
Qed.

(** ** Theorems: querying *)

(** With no image query and no text query (None or the empty string ''), [query_flow]
    raises [NameError]: [query_vec] is never bound. *)
Theorem query_flow_no_query s query :
  query = None \/ query = Some "" -> query_flow s query None = Raise (NameError "query_vec").
Proof. intros [-> | ->]; reflexivity. Qed.

(** With no [memery.ann] saved, any query fails in the ranker
    ([treemap] is [None]) instead of answering "needs indexing". *)
Theorem query_flow_missing_index s query image_query v :
  st_ann s = None -> query_vector query image_query = Ok v ->
  query_flow s query image_query = Raise (AttributeError "get_nns_by_vector").
Proof. intros Hann Hv. unfold query_flow. rewrite Hv. simpl. now rewrite Hann. Qed.

Lemma query_ranks_all s query image_query v :
  store_inv s -> query_vector query image_query = Ok v ->
  exists d t files, st_db s = Some d
    /\ query_flow s query image_query = Ok files
    /\ files = nns_to_files d (ranker v t)
    /\ Permutation files (map e_fpath (dict_values d)).
Proof.
  intros (d & items & Hd & Hann & Hdense & Hal) Hv.
  pose proof (aligned_items d items Hdense Hal) as Hitems.
  exists d, (mk_annoy annoy_dim items), (nns_to_files d (ranker v (mk_annoy annoy_dim items))).
  split; [exact Hd|]. split; [unfold query_flow; rewrite Hv, Hd, Hann; reflexivity|].
  split; [reflexivity|].
  destruct (ranker_sorted_perm v (mk_annoy annoy_dim items)) as [Hperm _].
  unfold nns_to_files at 1. rewrite Hperm. cbn [ann_items]. fold (nns_to_files d (seq 0 (length items))).
  rewrite Hitems, length_map. remember (dict_values d) as vs eqn:Hvs.
  rewrite (dense_enumerate d 0 Hdense), <- Hvs, nns_to_files_enumerate. reflexivity.
Qed.

(** C8: on a saved state that satisfies the invariant, a query returns the
    path of every archive entry exactly once, in the ranker's order. *)
Theorem query_flow_ranks_all s query image_query v :
  store_inv s -> query_vector query image_query = Ok v ->
  exists d t files, st_db s = Some d
    /\ query_flow s query image_query = Ok files
    /\ files = nns_to_files d (ranker v t)
    /\ Permutation files (map e_fpath (dict_values d)).
Proof. apply query_ranks_all. Qed.

(** C7: a modified or new file is encoded afresh: when a verified scanned
    file's hash is in no entry of the saved archive, the new archive holds
    the entry of that file with the encoding of its current bytes. *)
Theorem index_flow_encodes_new s s' paths p h nm t data :
  dict_wf (db_loader (st_db s)) ->
  NoDup (map (fun e => py_str (fst e)) (fs_entries (st_fs s))) ->
  index_flow s = Ok (s', paths) ->
  In (p, h) (get_image_files (st_fs s)) ->
  ~ In h (map e_hash (dict_values (db_loader (st_db s)))) ->
  fs_lookup (st_fs s) p = Some (FileNode nm t data) -> pil_verify data = true ->
  exists d, st_db s' = Some d /\ In (mk_entry h (py_str p) (encode_image data)) (dict_values d).
Proof.
  intros Hwf Hfs Hrun Hin Hold Hl Hpil.
  destruct (index_flow_inv _ _ _ Hrun) as (a & nf & blobs & tr & Hal & Hcr & _ & Hs).
  inversion Hs; subst. clear Hs.
  destruct (archive_loader_contract (st_fs s) (get_image_files (st_fs s)) (st_db s) Hwf)
    as (a' & nf' & Hal' & Hrec).
  rewrite Hal in Hal'. inversion Hal'; subst a' nf'. clear Hal'.
  assert (Hv : verify_image (st_fs s) p = true) by (unfold verify_image; now rewrite Hl).
  eexists. split; [reflexivity|]. rewrite join_all_values. apply in_or_app.
  destruct (rec_cover _ _ _ _ _ Hrec p h Hin Hv) as [Hh|Hnew].
  - exfalso. apply Hold. apply in_map_iff in Hh as [e [<- He]].
    apply in_map, (rec_from_old _ _ _ _ _ Hrec), He.
  - right. destruct (Forall2_In_combine _ _ _ _ (crafter_spec _ _ _ Hcr) Hnew)
      as (b & Hb & nm' & t' & Ho).
    cbn [fst] in Ho. rewrite (fs_open_lookup _ _ _ Hfs Hl) in Ho. inversion Ho; subst b.
    apply in_map_iff. exists ((py_str p, h), encode_image data). split; [reflexivity|].
    now apply in_combine_map_r.
Qed.

(** C18: the build fails loudly (spec 4.4): when a reused entry or a new
    embedding of the merged archive does not have 512 dimensions,
    [index_flow] raises an Annoy error and saves nothing. *)
Theorem index_flow_bad_dimension s archive_db new_files blobs e :
  archive_loader (st_fs s) (get_image_files (st_fs s)) (st_db s) = Ok (archive_db, new_files) ->
  crafter (st_fs s) new_files = Ok blobs ->
  In e (dict_values (join_all archive_db new_files (image_encoder blobs))) ->
  length (e_embed e) <> annoy_dim ->
  exists why, index_flow s = Raise (AnnoyError why).
Proof.
  intros Hal Hcr Hin Hbad. unfold index_flow. rewrite Hal. simpl. rewrite Hcr. simpl.
  rewrite join_all_values in Hin. unfold join_all, build_treemap. rewrite length_enumerate.
  destruct (add_items_enumerate_bad _ 0 e Hin Hbad) as [why Hwhy]. rewrite Hwhy. simpl. eauto.
Qed.

(** A query whose vector is the embedding of archive entry [i] returns
    first the path of an entry at angular distance zero from it (entry [i]
    itself or one tied with it), on a state that satisfies the invariant. *)
Theorem query_flow_self_match s query image_query d i e :
  store_inv s -> st_db s = Some d -> dict_get d i = Some e ->
  query_vector query image_query = Ok (e_embed e) ->
  exists j e' rest, dict_get d j = Some e'
    /\ query_flow s query image_query = Ok (e_fpath e' :: rest)
    /\ key_le (angular_key (e_embed e) (e_embed e)) (angular_key (e_embed e) (e_embed e')) = true.
Proof.
  intros (d' & items & Hd & Hann & Hdense & Hal) Hd' Hi Hv.
  rewrite Hd in Hd'. inversion Hd'; subst d'. clear Hd'.
  set (t := mk_annoy annoy_dim items).
  assert (Hq : nth_error (ann_items t) i = Some (e_embed e)) by (simpl; now rewrite Hal, Hi).
  destruct (ranker_self_first (e_embed e) t i Hq) as (j & rest & Hr & Hkey).
  destruct (ranker_sorted_perm (e_embed e) t) as [Hperm _].
  assert (Hj : j < length items).
  { assert (Hin : In j (seq 0 (length (ann_items t))))
      by (apply (Permutation_in _ Hperm); rewrite Hr; now left).
    apply in_seq in Hin. simpl in Hin. lia. }
  destruct (nth_error items j) as [v|] eqn:Hnj; [|apply nth_error_None in Hnj; lia].
  rewrite Hal in Hnj. destruct (dict_get d j) as [e'|] eqn:Hdj; [|discriminate].
  simpl in Hnj. inversion Hnj; subst v.
  exists j, e', (nns_to_files d rest). split; [exact Hdj|]. split.
  - unfold query_flow. rewrite Hv, Hd, Hann. simpl. fold t. rewrite Hr. simpl. now rewrite Hdj.
  - unfold item_key in Hkey. simpl in Hkey.
    now rewrite (nth_error_nth items j [] (eq_trans (Hal j) (f_equal _ Hdj))) in Hkey.
Qed.

End WithModels.

(** ** Theorems: a second run

    Stated outside [WithModels] so that the second run may use another
    encoder than the first. *)

Section Rescan.
Context `{Pil} `{Clip}.

(** After a run, a tree whose scan yields the keys of the first scan
    (each key of a file PIL accepts an accepted key of the first scan, no
    key lost) is reconciled with nothing to encode, and the second run
    returns the saved state unchanged, whatever the encoder. *)
Lemma index_flow_rescan_noop s s1 paths fs' :
  dict_wf (db_loader (st_db s)) -> index_flow s = Ok (s1, paths) ->
  fs_root fs' = fs_root (st_fs s) ->
  incl (map snd (get_image_files (st_fs s))) (map snd (get_image_files fs')) ->
  (forall p' h, In (p', h) (get_image_files fs') -> verify_image fs' p' = true ->
     exists p, In (p, h) (get_image_files (st_fs s)) /\ verify_image (st_fs s) p = true) ->
  exists d, st_db s1 = Some d
    /\ archive_loader fs' (get_image_files fs') (st_db s1) = Ok (d, [])
    /\ forall clip' : Clip,
         @index_flow _ clip' (mk_store fs' (st_db s1) (st_ann s1))
         = Ok (mk_store fs' (st_db s1) (st_ann s1), paths).
Proof.
  intros Hwf Hrun Hroot Hkeep Hknown.
  destruct (index_flow_hashes _ _ _ Hwf Hrun) as (d & Hd & Hstale & Hcover).
  destruct (index_flow_inv _ _ _ Hrun) as (a & nf & blobs & t & _ & _ & Hb & Hs).
  inversion Hs; subst s1 paths. cbn [st_db] in Hd. inversion Hd; subst d. clear Hd Hs.
  set (d := join_all a nf (image_encoder blobs)) in *.
  assert (Hre : enumerate 0 (dict_values d) = d) by apply join_all_reenumerate.
  assert (Hal : archive_loader fs' (get_image_files fs') (Some d) = Ok (d, [])).
  { rewrite archive_loader_eq by apply join_all_wf. cbv zeta. change (db_loader (Some d)) with d.
    rewrite (filter_all _ (enumerate 0 (dict_values d))).
    2:{ intros [k e] Hin. apply py_in_iff, Hkeep, Hstale, in_map.
        assert (Hv : In e (dict_values (enumerate 0 (dict_values d))))
          by (apply (in_map snd) in Hin; exact Hin).
        now rewrite enumerate_values in Hv. }
    rewrite Hre, filter_none; [reflexivity|].
    intros [p' h] Hin. simpl. destruct (verify_image fs' p') eqn:Hv; [|apply andb_false_r].
    destruct (Hknown p' h Hin Hv) as (p & Hp & Hvp).
    now rewrite (proj2 (py_in_iff _ _) (Hcover p h Hp Hvp)). }
  assert (Hnil : join_all d [] [] = d).
  { unfold join_all at 1. simpl. rewrite app_nil_r. exact Hre. }
  exists d. split; [reflexivity|]. split; [exact Hal|].
  intros clip'. unfold index_flow. cbn [st_fs st_db]. rewrite Hal. simpl.
  rewrite Hnil, Hb. unfold save_archives. simpl. now rewrite Hroot.
Qed.

(** C4: indexing is idempotent (spec 8.1): on the unchanged directory
    the second [index_flow] lists no file to encode, and whatever the
    encoder it saves exactly the archive and index of the first run. *)
Theorem index_flow_idempotent s s1 paths :
  dict_wf (db_loader (st_db s)) -> index_flow s = Ok (s1, paths) ->
  exists d, st_db s1 = Some d
    /\ archive_loader (st_fs s1) (get_image_files (st_fs s1)) (st_db s1) = Ok (d, [])
    /\ forall clip' : Clip, @index_flow _ clip' s1 = Ok (s1, paths).
Proof.
  intros Hwf Hrun. pose proof (index_flow_fs _ _ _ Hrun) as Hfs.
  destruct s1 as [fs1 db1 ann1]. cbn [st_fs] in *. subst fs1.
  apply (index_flow_rescan_noop s _ _ (st_fs s) Hwf Hrun); [reflexivity | apply incl_refl |].
  intros p h Hin Hv. exists p. auto.
Qed.

(** C5: [index_flow] sees a file only through its key, the name stem and
    the whole seconds of its mtime: after a run, when the tree changes
    without changing the set of keys (a file moved with its mtime, a
    file rewritten within the same second, a second image with the same
    name and second added elsewhere), the next run encodes nothing and
    keeps the archive as it was, old paths and old embeddings included. *)
Theorem index_flow_same_keys s s1 paths fs' :
  dict_wf (db_loader (st_db s)) -> index_flow s = Ok (s1, paths) ->
  fs_root fs' = fs_root (st_fs s) ->
  incl (map snd (get_image_files (st_fs s))) (map snd (get_image_files fs')) ->
  (forall p' h, In (p', h) (get_image_files fs') -> verify_image fs' p' = true ->
     exists p, In (p, h) (get_image_files (st_fs s)) /\ verify_image (st_fs s) p = true) ->
  exists d, st_db s1 = Some d
    /\ archive_loader fs' (get_image_files fs') (st_db s1) = Ok (d, [])
    /\ forall clip' : Clip,
         @index_flow _ clip' (mk_store fs' (st_db s1) (st_ann s1))
         = Ok (mk_store fs' (st_db s1) (st_ann s1), paths).
Proof. apply index_flow_rescan_noop. Qed.

End Rescan.
