(* ===== verification/Ranking.v ===== *)
(** * Ranking: [query_flow] refines the ranking contract of spec 4.5

    Spec 4.5 asks [query_flow] for the archived files ordered nearest
    first by the index's angular metric. The contract is [stable_rank]:
    the output is a permutation of the archive's entries, each at least as
    near to the query as every later one, and entries at the same distance
    in archive order. The contract determines the output
    ([stable_rank_unique]), and [query_flow] returns the paths of exactly
    that list: the insertion sort behind [ranker] is stable
    ([Index.sort_by_stable]) and the index is aligned with the archive. *)
From S2P Require Import Prelude Catalog Archive Merger Index Flows.
From Stdlib Require Import Sorted.
Local Open Scope Z_scope.

(** The angular key of an archive entry for query vector [v]. *)
Definition entry_key (v : list Z) (e : entry) : Z * Z := angular_key v (e_embed e).

(** The ranking contract: [out] lists the elements of [l] nearest first
    (by key [f]), and the elements of one key class in their order in [l]. *)
Definition stable_rank {A} (f : A -> Z * Z) (l out : list A) : Prop :=
  Permutation out l
  /\ StronglySorted (fun x y => key_le (f y) (f x) = true) out
  /\ forall k, 0 < snd k ->
       filter (fun x => key_eqb (f x) k) out = filter (fun x => key_eqb (f x) k) l.

(** The entry [nth] falls back on past the end of the archive. *)
Definition no_entry : entry := mk_entry "" "" [].

(** ** Lemmas *)

Lemma key_le_refl k : key_le k k = true.
Proof. unfold key_le. apply Z.leb_le. lia. Qed.

Lemma map_nth_seq {A} (vs : list A) dflt :
  map (fun i => nth i vs dflt) (seq 0 (length vs)) = vs.
Proof.
  induction vs as [|v vs IH]; [reflexivity|]. simpl. f_equal.
  rewrite <- seq_shift, map_map. exact IH.
Qed.

Lemma StronglySorted_map {A B} (R : A -> A -> Prop) (R' : B -> B -> Prop) (g : A -> B) l :
  (forall x y, R x y -> R' (g x) (g y)) ->
  StronglySorted R l -> StronglySorted R' (map g l).
Proof.
  intros HR. induction 1 as [|x l _ IH Hx]; simpl; constructor; [exact IH|].
  apply Forall_map. eapply Forall_impl; [|exact Hx]. auto.
Qed.

Section Unique.
Context {A : Type} (f : A -> Z * Z).
Hypothesis f_den_pos : forall x, 0 < snd (f x).

(** Two lists that are permutations of each other, both nearest first
    and with the same order inside every key class, are equal. *)
Lemma sorted_stable_eq o1 o2 :
  Permutation o1 o2 ->
  StronglySorted (fun x y => key_le (f y) (f x) = true) o1 ->
  StronglySorted (fun x y => key_le (f y) (f x) = true) o2 ->
  (forall k, 0 < snd k ->
     filter (fun x => key_eqb (f x) k) o1 = filter (fun x => key_eqb (f x) k) o2) ->
  o1 = o2.
Proof.
  revert o2. induction o1 as [|x o1 IH]; intros o2 Hp S1 S2 Hcls.
  - now apply Permutation_nil in Hp.
  - destruct o2 as [|y o2]; [now apply Permutation_sym, Permutation_nil in Hp|].
    apply StronglySorted_inv in S1 as [S1 F1]. apply StronglySorted_inv in S2 as [S2 F2].
    assert (Hxy : x = y).
    { destruct (Permutation_in x Hp (or_introl eq_refl)) as [<-|Hx]; [reflexivity|].
      destruct (Permutation_in y (Permutation_sym Hp) (or_introl eq_refl)) as [->|Hy];
        [reflexivity|].
      rewrite Forall_forall in F1, F2.
      specialize (Hcls (f x) (f_den_pos x)). simpl in Hcls.
      assert (Ex : key_eqb (f x) (f x) = true) by (unfold key_eqb; now rewrite key_le_refl).
      assert (Ey : key_eqb (f y) (f x) = true) by (unfold key_eqb; now rewrite (F1 y Hy), (F2 x Hx)).
      rewrite Ex, Ey in Hcls. now injection Hcls. }
    subst y. f_equal. apply IH; [now apply Permutation_cons_inv in Hp | exact S1 | exact S2|].
    intros k Hk. specialize (Hcls k Hk). simpl in Hcls.
    destruct (key_eqb (f x) k); [now injection Hcls | exact Hcls].
Qed.

(** The contract determines the ranking. *)
Lemma stable_rank_unique l o1 o2 : stable_rank f l o1 -> stable_rank f l o2 -> o1 = o2.
Proof.
  intros (P1 & S1 & C1) (P2 & S2 & C2). apply sorted_stable_eq; [|exact S1|exact S2|].
  - now rewrite P1, P2.
  - intros k Hk. now rewrite C1, C2.
Qed.

End Unique.

Lemma entry_key_den_pos v e : 0 < snd (entry_key v e).
Proof. apply angular_key_den_pos. Qed.

(** [nns_to_files] on a densely numbered archive reads entry [i] at [i]. *)
Lemma nns_to_files_enumerate_in vs idx :
  Forall (fun i => (i < length vs)%nat) idx ->
  nns_to_files (enumerate 0 vs) idx = map (fun i => e_fpath (nth i vs no_entry)) idx.
Proof.
  induction 1 as [|i idx Hi _ IH]; [reflexivity|]. simpl.
  pose proof (dict_get_enumerate vs 0 i) as E. simpl in E.
  rewrite E, (nth_error_nth' vs no_entry Hi). simpl. now f_equal.
Qed.

Lemma ranker_in_range v t : Forall (fun i => (i < length (ann_items t))%nat) (ranker v t).
Proof.
  apply Forall_forall. intros i Hi. destruct (ranker_sorted_perm v t) as [Hp _].
  apply (Permutation_in i Hp), in_seq in Hi. lia.
Qed.

Section Refine.
Context `{Pil} `{Clip}.

(** On an aligned store the ranked paths are those of the entries in the
    order of [ranker], and that order meets the contract. *)
Lemma query_flow_stable s query image_query v :
  store_inv s -> query_vector query image_query = Ok v ->
  exists d es, st_db s = Some d
    /\ query_flow s query image_query = Ok (map e_fpath es)
    /\ stable_rank (entry_key v) (dict_values d) es.
Proof.
  intros (d & items & Hd & Hann & Hdense & Hal) Hv.
  pose proof (aligned_items d items Hdense Hal) as Hitems.
  set (vs := dict_values d) in *. set (t := mk_annoy annoy_dim items).
  set (g := fun i => nth i vs no_entry).
  assert (Hlen : length (ann_items t) = length vs) by (cbn [ann_items t]; now rewrite Hitems, length_map).
  assert (Hkey : forall i, item_key v t i = entry_key v (g i)).
  { intros i. unfold item_key, entry_key, g. cbn [ann_items t]. rewrite Hitems.
    now rewrite <- (map_nth e_embed vs no_entry i). }
  destruct (ranker_sorted_perm v t) as [Hperm Hsorted].
  exists d, (map g (ranker v t)). split; [exact Hd|]. split; [|split; [|split]].
  - unfold query_flow. rewrite Hv, Hd, Hann. cbn [db_loader treemap_loader].
    cbn [bind]. rewrite (dense_enumerate d 0 Hdense) at 1. fold vs. fold t.
    rewrite nns_to_files_enumerate_in, map_map; [reflexivity|].
    rewrite <- Hlen. apply ranker_in_range.
  - fold vs. rewrite <- (map_nth_seq vs no_entry). rewrite <- Hlen. now apply Permutation_map.
  - eapply StronglySorted_map; [|exact Hsorted]. intros i j. unfold nearer. now rewrite !Hkey.
  - intros k Hk. fold vs. rewrite filter_map_comm.
    rewrite (filter_ext (fun i => key_eqb (entry_key v (g i)) k) (fun i => key_eqb (item_key v t i) k))
      by (intros i; now rewrite Hkey).
    unfold ranker. rewrite sort_by_stable by (exact (item_key_den_pos v t) || exact Hk).
    rewrite (filter_ext (fun i => key_eqb (item_key v t i) k) (fun i => key_eqb (entry_key v (g i)) k))
      by (intros i; now rewrite Hkey).
    rewrite <- (filter_map_comm (fun x => key_eqb (entry_key v x) k) g), Hlen. unfold g. now rewrite map_nth_seq.
Qed.

(** ** Theorems *)

(** C9: on a saved state that satisfies the invariant, [query_flow]
    refines the ranking contract of spec 4.5: a list of the archive's
    entries nearest first, with entries at the same distance in archive
    order, exists, and [query_flow] returns the paths of every such list
    (the contract leaves no choice). *)
Theorem query_flow_refines_rank s query image_query v d :
  store_inv s -> st_db s = Some d -> query_vector query image_query = Ok v ->
  (exists es, stable_rank (entry_key v) (dict_values d) es)
  /\ forall es, stable_rank (entry_key v) (dict_values d) es ->
       query_flow s query image_query = Ok (map e_fpath es).
Proof.
  intros Hinv Hd Hv.
  destruct (query_flow_stable s query image_query v Hinv Hv) as (d' & es0 & Hd' & Hq & Hr).
  rewrite Hd in Hd'. injection Hd' as <-. split; [eauto|].
  intros es Hes. rewrite Hq. do 2 f_equal.
  exact (stable_rank_unique _ (entry_key_den_pos v) _ _ _ Hr Hes).
Qed.

(** The first path a query returns is that of an archived entry at
    the smallest angular distance from the query vector: no archived
    entry is strictly nearer. *)
Theorem query_flow_first_nearest s query image_query v f rest :
  store_inv s -> query_vector query image_query = Ok v ->
  query_flow s query image_query = Ok (f :: rest) ->
  exists d e, st_db s = Some d /\ In e (dict_values d) /\ e_fpath e = f
    /\ forall e', In e' (dict_values d) -> key_le (entry_key v e') (entry_key v e) = true.
Proof.
  intros Hinv Hv Hq.
  destruct (query_flow_stable s query image_query v Hinv Hv) as (d & es & Hd & Hq' & Hp & Hs & _).
  rewrite Hq in Hq'. destruct es as [|e es]; [discriminate|]. injection Hq' as Hf _.
  exists d, e. split; [exact Hd|]. split; [exact (Permutation_in e Hp (or_introl eq_refl))|].
  split; [now symmetry|]. intros e' He'.
  destruct (Permutation_in e' (Permutation_sym Hp) He') as [<-|Hin]; [apply key_le_refl|].
  apply StronglySorted_inv in Hs as [_ Hall]. rewrite Forall_forall in Hall. exact (Hall e' Hin).
Qed.

End Refine.
