(* ===== verification/Lifecycle.v ===== *)
(** * Lifecycle: memery's saved state across runs

    Between two runs the user adds, removes, moves or edits images; a run
    of [index_flow] reads the tree and the two saved files and replaces
    both files when it succeeds (a run that raises writes nothing);
    [query_flow] only reads. The relation [step] has one rule per event
    that changes the saved state, and [reachable] is every state from a
    root where nothing was saved yet. The theorems hold for every
    reachable state: both files exist or neither does, the archive is
    numbered densely with 512-dimensional embeddings and the index is
    aligned with it; hence indexing again cannot fail and a query is served
    from an aligned pair. *)
From S2P Require Import Prelude PyPath Catalog Archive Merger Index Flows.
Local Open Scope memery_scope.

(** Every embedding of an archive has the dimension of the index. *)
Definition dims_ok (d : db) : Prop :=
  Forall (fun e => length (e_embed e) = annoy_dim) (dict_values d).

(** The saved state of a root: nothing saved yet, or an aligned pair of
    files whose embeddings have 512 dimensions. *)
Definition saved_ok (s : store) : Prop :=
  (st_db s = None /\ st_ann s = None)
  \/ (store_inv s /\ exists d, st_db s = Some d /\ dims_ok d).

Section WithModels.
Context `{Pil} `{Clip}.

(** The events that change the saved state of a root. *)
Inductive step : store -> store -> Prop :=
| step_index s s' paths :
    index_flow s = Ok (s', paths) -> step s s'
| step_files s fs' :
    step s (mk_store fs' (st_db s) (st_ann s)).

(** The states of a root that memery can be found in. *)
Inductive reachable : store -> Prop :=
| reachable_init fs : reachable (mk_store fs None None)
| reachable_step s s' : reachable s -> step s s' -> reachable s'.

(** ** Lemmas *)

Lemma index_flow_saved_ok s s' paths : index_flow s = Ok (s', paths) -> saved_ok s'.
Proof.
  intros Hrun. right. split; [exact (index_flow_saves_inv _ _ _ Hrun)|].
  destruct (index_flow_inv _ _ _ Hrun) as (a & nf & blobs & t & _ & _ & Hb & Hs).
  inversion Hs; subst. eexists. split; [reflexivity|].
  unfold dims_ok. unfold join_all in Hb |- *. rewrite enumerate_values.
  exact (build_enumerate_dims _ _ Hb).
Qed.

Lemma reachable_saved s : reachable s -> saved_ok s.
Proof.
  induction 1 as [fs|s s' _ IH Hstep]; [left; split; reflexivity|].
  destruct Hstep as [s s'' paths Hrun|s fs']; [exact (index_flow_saved_ok _ _ _ Hrun) | exact IH].
Qed.

(** A saved state satisfies the preconditions of a run that cannot fail,
    given a tree whose path strings differ and a 512-dimensional encoder. *)
Lemma saved_ok_run_ok s :
  saved_ok s ->
  NoDup (map (fun e => py_str (fst e)) (fs_entries (st_fs s))) ->
  (forall b, length (encode_image b) = annoy_dim) -> run_ok s.
Proof.
  intros [[Hdb _]|[(d & items & Hd & _ & Hdense & _) (d' & Hd' & Hdims)]] Hfs Hclip.
  - unfold run_ok, db_loader. rewrite Hdb. repeat split; auto; constructor.
  - rewrite Hd in Hd'. inversion Hd'; subst d'. unfold run_ok, db_loader. rewrite Hd.
    repeat split; auto. unfold dict_wf. rewrite Hdense. apply seq_NoDup.
Qed.

(** ** Theorems *)

(** C10: every reachable state is saved consistently: either nothing was
    saved, or both files are there, the archive is numbered [0 .. N-1],
    its embeddings have 512 dimensions and index item [i] is the
    embedding of entry [i]. *)
Theorem reachable_saved_ok s : reachable s -> saved_ok s.
Proof. apply reachable_saved. Qed.

(** C11: from any reachable state, indexing again succeeds on a well-formed
    file system (names without '/', siblings named apart) with a
    512-dimensional encoder: the saved archive never blocks a later run. *)
Theorem reachable_index_ok s :
  reachable s -> fsys_wfb (st_fs s) = true ->
  (forall b, length (encode_image b) = annoy_dim) ->
  exists s' paths, index_flow s = Ok (s', paths).
Proof.
  intros Hr Hfs Hclip. apply index_flow_runs, saved_ok_run_ok;
    [apply reachable_saved | apply fs_entries_str_NoDup |]; assumption.
Qed.

(** C21: in every reachable state the index holds exactly one item per
    archive entry (spec 3: [len(archive)] equals the number of items) and
    every item has 512 dimensions. *)
Theorem reachable_sizes_agree s d items :
  reachable s -> st_db s = Some d -> st_ann s = Some items ->
  length items = length d /\ Forall (fun v => length v = annoy_dim) items.
Proof.
  intros Hr Hd Hann.
  destruct (reachable_saved s Hr)
    as [[Hdb _]|[(d1 & items1 & Hd1 & Hann1 & Hdense & Hal) (d2 & Hd2 & Hdims)]]; [congruence|].
  rewrite Hd in Hd1, Hd2. rewrite Hann in Hann1.
  inversion Hd1; inversion Hd2; inversion Hann1; subst.
  rewrite (aligned_items d2 items1 Hdense Hal). split.
  - unfold dict_values. now rewrite !length_map.
  - now apply Forall_map.
Qed.

(** Once a root has been indexed, every later state serves queries: a
    valid query returns the path of every archived entry exactly once. *)
Theorem reachable_query_served s query image_query v :
  reachable s -> st_ann s <> None -> query_vector query image_query = Ok v ->
  exists d files, st_db s = Some d
    /\ query_flow s query image_query = Ok files
    /\ Permutation files (map e_fpath (dict_values d)).
Proof.
  intros Hr Hann Hv.
  destruct (reachable_saved s Hr) as [[_ Hnone]|[Hinv _]]; [contradiction|].
  destruct (query_ranks_all s query image_query v Hinv Hv) as (d & t & files & Hd & Hq & _ & Hp).
  eauto.
Qed.

End WithModels.
