(* ===== verification/Pipeline.v ===== *)
(** * Pipeline: [index_flow] statement by statement

    [Flows.index_flow] is the whole run at once. Here the same run is a
    machine whose phase holds the local variables of core.py l.15-34
    between two statements; each step executes one statement, with the
    operations of [Flows], and reads the persisted [store] when that
    statement does ([get_image_files] at l.15, [db_loader] inside
    [archive_loader] at l.18, [open] inside [crafter] at l.23). The saving
    of l.32 writes the two files one after the other, [memery.pt] then
    [memery.ann] (the order in which spec 6 lists them and [index_flow]
    returns their paths), so a run can stop between the two writes.

    The theorems: every run reaches [IDone] or [IFailed] within
    [irank IStart] = 8 steps (termination); the run with that fuel is
    [index_flow] (equivalence); and a run that stops early leaves either
    the old files, or the new [memery.pt] beside the old [memery.ann]. *)
From S2P Require Import Prelude PyPath Catalog Archive Merger Index Flows Lifecycle.
Local Open Scope string_scope.
Local Open Scope memery_scope.

(** The local variables of [index_flow] after each statement. *)
Inductive iphase : Type :=
| IStart                                                          (** l.11-12 *)
| IScanned (filepaths : list (py_path * string))                  (** l.15 *)
| IReconciled (archive_db : db) (new_files : list (string * string))            (** l.18 *)
| ICrafted (archive_db : db) (new_files : list (string * string)) (crafted : list blob) (** l.23 *)
| IEncoded (archive_db : db) (new_files : list (string * string)) (embs : list (list Z)) (** l.24 *)
| IJoined (d : db)                                                (** l.27 *)
| IBuilt (d : db) (t : annoy)                                     (** l.29 *)
| IDbSaved (d : db) (t : annoy)                  (** l.32: [memery.pt] written *)
| IDone (paths : string * string)                (** l.32-34: both written, returned *)
| IFailed (e : py_error).                        (** a statement raised *)

(** A run has ended. *)
Definition ifinal (p : iphase) : bool :=
  match p with IDone _ | IFailed _ => true | _ => false end.

(** The number of statements left: the variant of the run. *)
Definition irank (p : iphase) : nat :=
  match p with
  | IStart => 8 | IScanned _ => 7 | IReconciled _ _ => 6 | ICrafted _ _ _ => 5
  | IEncoded _ _ _ => 4 | IJoined _ => 3 | IBuilt _ _ => 2 | IDbSaved _ _ => 1
  | IDone _ | IFailed _ => 0
  end.

(** The first write of [indexer.save_archives]: [torch.save(db, memery.pt)]. *)
Definition save_db (s : store) (d : db) : store := mk_store (st_fs s) (Some d) (st_ann s).

(** The second write: [treemap.save(memery.ann)]. *)
Definition save_ann (s : store) (t : annoy) : store := mk_store (st_fs s) (st_db s) (Some (ann_items t)).

(** The two paths [save_archives] returns. *)
Definition archive_paths (s : store) : string * string :=
  let root := fs_root (st_fs s) in
  (py_str (root ++ ["memery.pt"])%list, py_str (root ++ ["memery.ann"])%list).

(** [(d, t)] is what a run saves: a densely numbered archive and the index
    [build_treemap] built from it. *)
Definition built_pair (d : db) (t : annoy) : Prop :=
  map fst d = seq 0 (length d) /\ build_treemap d = Ok t.

(** What a phase knows of its variables. *)
Definition iphase_ok (p : iphase) : Prop :=
  match p with
  | IJoined d => map fst d = seq 0 (length d)
  | IBuilt d t | IDbSaved d t => built_pair d t
  | _ => True
  end.

Section WithModels.
Context `{Pil} `{Clip}.

(** One statement of [index_flow]. *)
Definition istep (s : store) (p : iphase) : store * iphase :=
  match p with
  | IStart => (s, IScanned (get_image_files (st_fs s)))
  | IScanned filepaths =>
      match archive_loader (st_fs s) filepaths (st_db s) with
      | Ok (archive_db, new_files) => (s, IReconciled archive_db new_files)
      | Raise e => (s, IFailed e)
      end
  | IReconciled archive_db new_files =>
      match crafter (st_fs s) new_files with
      | Ok crafted => (s, ICrafted archive_db new_files crafted)
      | Raise e => (s, IFailed e)
      end
  | ICrafted archive_db new_files crafted =>
      (s, IEncoded archive_db new_files (image_encoder crafted))
  | IEncoded archive_db new_files embs => (s, IJoined (join_all archive_db new_files embs))
  | IJoined d =>
      match build_treemap d with
      | Ok t => (s, IBuilt d t)
      | Raise e => (s, IFailed e)
      end
  | IBuilt d t => (save_db s d, IDbSaved d t)
  | IDbSaved d t => (save_ann s t, IDone (archive_paths s))
  | IDone _ | IFailed _ => (s, p)
  end.

(** The simulation relation: what the state reached after some
    statements of a run from [s] says about [index_flow s]. Before the
    first write the store is still [s]. *)
Definition iinv (s : store) (c : store * iphase) : Prop :=
  let '(s', p) := c in
  let loaded := archive_loader (st_fs s) (get_image_files (st_fs s)) (st_db s) in
  match p with
  | IStart => s' = s
  | IScanned fps => s' = s /\ fps = get_image_files (st_fs s)
  | IReconciled a nf => s' = s /\ loaded = Ok (a, nf)
  | ICrafted a nf c => s' = s /\ loaded = Ok (a, nf) /\ crafter (st_fs s) nf = Ok c
  | IEncoded a nf embs =>
      s' = s /\ exists c, loaded = Ok (a, nf) /\ crafter (st_fs s) nf = Ok c /\ embs = image_encoder c
  | IJoined d =>
      s' = s /\ exists a nf c, loaded = Ok (a, nf) /\ crafter (st_fs s) nf = Ok c
                            /\ d = join_all a nf (image_encoder c)
  | IBuilt d t => s' = s /\ built_pair d t /\ index_flow s = Ok (save_archives s t d)
  | IDbSaved d t => s' = save_db s d /\ built_pair d t /\ index_flow s = Ok (save_archives s t d)
  | IDone paths => index_flow s = Ok (s', paths)
  | IFailed e => s' = s /\ index_flow s = Raise e
  end.

End WithModels.

(** [n] statements of [index_flow]. *)
Abbreviation irun := (run istep).

(** ** Lemmas *)

Section Lemmas.
Context `{Pil} `{Clip}.

Lemma istep_final s p : ifinal p = true -> istep s p = (s, p).
Proof. destruct p; simpl; congruence. Qed.

Lemma irank_le_8 p : irank p <= 8.
Proof. destruct p; simpl; lia. Qed.

Lemma irank_zero p : irank p = 0 -> ifinal p = true.
Proof. destruct p; simpl; congruence. Qed.

(** Every statement that does not end the run lowers the variant. *)
Lemma istep_rank s p : ifinal p = false -> irank (snd (istep s p)) < irank p.
Proof.
  destruct p; simpl; intros Hf; try discriminate;
    repeat match goal with |- context [match ?x with _ => _ end] => destruct x end; simpl; lia.
Qed.

Lemma irun_terminates n s p : irank p <= n -> ifinal (snd (irun n s p)) = true.
Proof. apply run_terminates; [exact istep_final | exact istep_rank | exact irank_zero]. Qed.

Lemma join_all_keys a nf embs :
  map fst (join_all a nf embs) = seq 0 (length (join_all a nf embs)).
Proof. unfold join_all. now rewrite enumerate_keys, length_enumerate. Qed.

(** [index_flow] from what a phase has recorded. *)
Ltac flow_from Hal Hcr :=
  unfold index_flow; rewrite Hal; cbn [bind]; rewrite Hcr; cbn [bind].

(** Every statement keeps the simulation relation. *)
Lemma istep_iinv s c : iinv s c -> iinv s (istep (fst c) (snd c)).
Proof.
  destruct c as [s' p]. cbn [fst snd].
  destruct p as [|fps|a nf|a nf cr|a nf embs|d|d t|d t|paths|e]; simpl; intros Hinv.
  - subst. simpl. auto.
  - destruct Hinv as [-> ->].
    destruct (archive_loader _ _ _) as [[a nf]|e] eqn:Hal; simpl; [auto|].
    split; [reflexivity|]. unfold index_flow. now rewrite Hal.
  - destruct Hinv as [-> Hal].
    destruct (crafter _ nf) as [cr|e] eqn:Hcr; simpl; [auto|].
    split; [reflexivity|]. unfold index_flow. rewrite Hal. cbn [bind]. now rewrite Hcr.
  - destruct Hinv as (-> & Hal & Hcr). simpl. eauto.
  - destruct Hinv as (-> & cr & Hal & Hcr & ->). simpl. eauto 7.
  - destruct Hinv as (-> & a & nf & cr & Hal & Hcr & ->).
    destruct (build_treemap _) as [t|e] eqn:Hb; simpl; (split; [reflexivity|]).
    + split; [split; [apply join_all_keys | exact Hb]|]. flow_from Hal Hcr. now rewrite Hb.
    + flow_from Hal Hcr. now rewrite Hb.
  - destruct Hinv as (-> & Hp & Hrun). simpl. auto.
  - destruct Hinv as (-> & Hp & Hrun). simpl. exact Hrun.
  - exact Hinv.
  - exact Hinv.
Qed.

Lemma irun_iinv n s s' p : iinv s (s', p) -> iinv s (irun n s' p).
Proof. apply run_inv. intros s1 p1 Hi. exact (istep_iinv s (s1, p1) Hi). Qed.

(** A statement writes [memery.pt], or [memery.ann], or nothing. *)
Lemma istep_cases s p :
  (exists d t, p = IBuilt d t /\ istep s p = (save_db s d, IDbSaved d t))
  \/ (exists d t, p = IDbSaved d t /\ istep s p = (save_ann s t, IDone (archive_paths s)))
  \/ (fst (istep s p) = s
      /\ (forall d t, p <> IDbSaved d t) /\ forall d t, snd (istep s p) <> IDbSaved d t).
Proof.
  destruct p; simpl; [| | | | | | left; eauto | right; left; eauto | |];
    right; right; (split; [|split]); try (intros; discriminate);
    repeat match goal with |- context [match ?x with _ => _ end] => destruct x end;
    simpl; try reflexivity; intros; discriminate.
Qed.

(** What a phase knows of its variables survives a statement, whatever
    the store. *)
Lemma istep_phase_ok s p : iphase_ok p -> iphase_ok (snd (istep s p)).
Proof.
  destruct p; simpl; intros Hok; auto;
    repeat match goal with |- context [match ?x with _ => _ end] => destruct x eqn:? end;
    simpl; auto.
  - apply join_all_keys.
  - split; assumption.
Qed.

(** What [iinv] says once the run has ended. *)
Lemma iinv_final s s' p :
  iinv s (s', p) -> ifinal p = true ->
  (exists paths, p = IDone paths /\ index_flow s = Ok (s', paths))
  \/ (exists e, p = IFailed e /\ s' = s /\ index_flow s = Raise e).
Proof.
  destruct p; simpl; try discriminate; intros Hinv _; [left; eauto|right].
  destruct Hinv; eauto.
Qed.

(** A saved pair gives a well-formed archive of 512-dimensional entries. *)
Lemma built_pair_db d t :
  built_pair d t -> dict_wf d /\ Forall (fun e => length (e_embed e) = annoy_dim) (dict_values d).
Proof.
  intros [Hdense Hb]. split; [unfold dict_wf; rewrite Hdense; apply seq_NoDup|].
  rewrite (dense_enumerate d 0 Hdense) in Hb. exact (build_enumerate_dims _ _ Hb).
Qed.

End Lemmas.

(** ** Theorems *)

Section Theorems.
Context `{Pil} `{Clip}.

(** Every run of [index_flow] ends: from any store, within
    [irank IStart] = 8 statements the run is done or has raised, and
    further steps change nothing. *)
Theorem index_run_terminates s :
  ifinal (snd (irun (irank IStart) s IStart)) = true
  /\ forall n, irank IStart <= n -> irun n s IStart = irun (irank IStart) s IStart.
Proof.
  split; [exact (irun_terminates _ s IStart (le_n _))|].
  intros n Hn. apply (run_stable _ ifinal irank); [exact istep_final | exact istep_rank
                                                  | exact irank_zero | reflexivity | exact Hn].
Qed.

(** The statement-by-statement run is [index_flow]: after its 8
    statements it has returned [index_flow]'s store and paths, or raised
    [index_flow]'s exception with the store untouched. *)
Theorem index_run_equiv s :
  irun 8 s IStart =
  match index_flow s with
  | Ok (s', paths) => (s', IDone paths)
  | Raise e => (s, IFailed e)
  end.
Proof.
  pose proof (irun_iinv 8 s s IStart eq_refl) as Hinv.
  pose proof (irun_terminates 8 s IStart (le_n _)) as Hfin. cbn [fst snd] in Hinv.
  destruct (irun 8 s IStart) as [s' p].
  destruct (iinv_final s s' p Hinv Hfin) as [(paths & -> & Hr)|(e & -> & -> & Hr)]; now rewrite Hr.
Qed.

(** C12: a run stopped after any number of statements has left the
    files as they were, or has written the new [memery.pt] (a dense
    archive whose index it built) beside the old [memery.ann], or has
    written both and returned what [index_flow] returns. *)
Theorem index_run_stopped s k :
  let '(s', p) := irun k s IStart in
  s' = s
  \/ (exists d t, p = IDbSaved d t /\ s' = save_db s d /\ built_pair d t
        /\ index_flow s = Ok (save_archives s t d))
  \/ (exists paths, p = IDone paths /\ index_flow s = Ok (s', paths)).
Proof.
  pose proof (irun_iinv k s s IStart eq_refl) as Hinv.
  destruct (irun k s IStart) as [s' p].
  destruct p; simpl in Hinv; try (left; tauto).
  - destruct Hinv as (-> & Hp & Hr). right; left. eauto 7.
  - right; right. eauto.
Qed.

(** C13: a stopped run never blocks the next one: from a store whose
    archive is well formed with 512-dimensional entries, on a well-formed
    tree with a 512-dimensional encoder, whatever statement a run stopped
    after, the next [index_flow] returns and saves an aligned pair. *)
Theorem index_run_recovers s k :
  run_ok s ->
  exists s' paths, index_flow (fst (irun k s IStart)) = Ok (s', paths) /\ store_inv s'.
Proof.
  intros Hok.
  assert (Hnext : forall s0, st_fs s0 = st_fs s ->
            dict_wf (db_loader (st_db s0)) ->
            Forall (fun e => length (e_embed e) = annoy_dim) (dict_values (db_loader (st_db s0))) ->
            exists s' paths, index_flow s0 = Ok (s', paths) /\ store_inv s').
  { intros s0 Hfs Hwf Hdims. destruct Hok as (_ & _ & Hnd & Hclip).
    destruct (index_flow_runs s0) as (s' & paths & Hr); [repeat split; auto; now rewrite Hfs|].
    exists s', paths. split; [exact Hr | exact (index_flow_saves_inv _ _ _ Hr)]. }
  pose proof (index_run_stopped s k) as Hst. destruct (irun k s IStart) as [s' p]. cbn [fst].
  destruct Hst as [->|[(d & t & _ & -> & Hp & _)|(paths & _ & Hr)]].
  - destruct Hok as (Hwf & Hdims & _). now apply Hnext.
  - destruct (built_pair_db d t Hp). now apply Hnext.
  - assert (Hfs : st_fs s' = st_fs s).
    { destruct (index_flow_inv _ _ _ Hr) as (a & nf & blobs & t & _ & _ & _ & Hs).
      now inversion Hs. }
    destruct Hok as (_ & _ & Hnd & Hclip).
    destruct (saved_ok_run_ok s' (index_flow_saved_ok _ _ _ Hr)) as (Hwf & Hdims & _);
      [now rewrite Hfs | exact Hclip|].
    now apply Hnext.
Qed.

End Theorems.
