(* ===== verification/Concurrency.v ===== *)
(** * Concurrency: two runs of [index_flow] on one root

    Spec 5 leaves concurrent invocations on one root to the caller ("not
    safe for concurrent writers"), and spec 9 names the missing
    single-writer lock as an open question. Here two runs [A] and [B] of
    the [Pipeline] machine, and the user editing the tree, take turns on
    one shared [store]: a schedule is the list of who moves, each run
    keeping its own phase (its local variables) while the store is shared.

    Without a lock a schedule exists in which both runs succeed and leave
    [memery.pt] of one run beside [memery.ann] of the other, so queries
    rank files by other files' embeddings (Scenarios). With a lock held
    from the first write to the second, every schedule keeps the two
    files consistent: both absent, or the archive and the index one run
    built from it ([locked_runs_consistent]). *)
From S2P Require Import Prelude PyPath Catalog Archive Merger Index Flows Lifecycle Pipeline.
Local Open Scope memery_scope.

(** Who moves: one statement of run [A] or of run [B], or an edit of the
    tree by the user. *)
Inductive actor : Type :=
| RunA
| RunB
| Edit (fs : fsys).

(** The shared store and the phase of each run. *)
Record config : Type := mk_config { c_store : store; c_a : iphase; c_b : iphase }.

(** The saved files agree: both absent, or an archive and the index built
    from it. *)
Definition consistent (s : store) : Prop :=
  (st_db s = None /\ st_ann s = None)
  \/ exists d t, st_db s = Some d /\ st_ann s = Some (ann_items t) /\ built_pair d t.

(** The archive a run has written while it is between its two writes. *)
Definition pending (p : iphase) : option db :=
  match p with IDbSaved d _ => Some d | _ => None end.

(** The invariant of two runs: what each phase knows, never both runs
    between their two writes, and the files consistent unless one run is
    between its writes, in which case [memery.pt] holds its archive. *)
Definition cinv (c : config) : Prop :=
  iphase_ok (c_a c) /\ iphase_ok (c_b c) /\
  match pending (c_a c), pending (c_b c) with
  | Some _, Some _ => False
  | Some d, None | None, Some d => st_db (c_store c) = Some d
  | None, None => consistent (c_store c)
  end.

(** [A] and [B] exchanged. *)
Definition swap (c : config) : config := mk_config (c_store c) (c_b c) (c_a c).

(** The lock: a run may not write [memery.pt] while the other run is
    between its two writes. *)
Definition may_write (self other : iphase) : bool :=
  match self, other with
  | IBuilt _ _, IDbSaved _ _ => false
  | _, _ => true
  end.

Section WithModels.
Context `{Pil} `{Clip}.

(** One move. *)
Definition act (a : actor) (c : config) : config :=
  match a with
  | RunA => let '(s', p') := istep (c_store c) (c_a c) in mk_config s' p' (c_b c)
  | RunB => let '(s', p') := istep (c_store c) (c_b c) in mk_config s' (c_a c) p'
  | Edit fs => mk_config (mk_store fs (st_db (c_store c)) (st_ann (c_store c))) (c_a c) (c_b c)
  end.

(** A schedule, move by move. *)
Fixpoint run_sched (sched : list actor) (c : config) : config :=
  match sched with
  | [] => c
  | a :: rest => run_sched rest (act a c)
  end.

(** The lock allows the move. *)
Definition may_act (a : actor) (c : config) : bool :=
  match a with
  | RunA => may_write (c_a c) (c_b c)
  | RunB => may_write (c_b c) (c_a c)
  | Edit _ => true
  end.

(** Every move of the schedule is allowed by the lock. *)
Fixpoint sched_locked (sched : list actor) (c : config) : bool :=
  match sched with
  | [] => true
  | a :: rest => may_act a c && sched_locked rest (act a c)
  end.

End WithModels.

(** ** Lemmas *)

Section Lemmas.
Context `{Pil} `{Clip}.

Lemma consistent_store_inv s : consistent s -> (st_db s = None /\ st_ann s = None) \/ store_inv s.
Proof.
  intros [Hn|(d & t & Hd & Ha & Hp)]; [now left|right].
  destruct Hp as [Hdense Hb].
  assert (Hwf : dict_wf d) by (unfold dict_wf; rewrite Hdense; apply seq_NoDup).
  destruct (build_aligned d t Hwf Hb) as [_ Hal]. exists d, (ann_items t). auto.
Qed.

Lemma pending_None p : (forall d t, p <> IDbSaved d t) -> pending p = None.
Proof. destruct p; simpl; auto. intros Hp. now destruct (Hp d t). Qed.

Lemma may_write_built d t q : may_write (IBuilt d t) q = true -> pending q = None.
Proof. destruct q; simpl; congruence. Qed.

(** A move of run [A] that the lock allows keeps the invariant. *)
Lemma act_A_cinv c : cinv c -> may_act RunA c = true -> cinv (act RunA c).
Proof.
  destruct c as [s pa pb]. unfold cinv, act, may_act. cbn [c_store c_a c_b].
  intros (Ha & Hb & Hm) Hlock.
  pose proof (istep_phase_ok s pa Ha) as Ha'.
  destruct (istep_cases s pa)
    as [(d & t & -> & ->)|[(d & t & -> & ->)|(Hs & Hnot & Hnot')]]; cbn [c_store c_a c_b] in *.
  - rewrite (may_write_built _ _ _ Hlock) in *. simpl. auto.
  - destruct (pending pb); [contradiction|]. simpl. split; [exact I|]. split; [exact Hb|].
    right. exists d, t. auto.
  - destruct (istep s pa) as [s' pa']. simpl in Hs, Hnot', Ha'. subst s'.
    cbn [c_store c_a c_b]. rewrite (pending_None pa Hnot) in Hm. rewrite (pending_None pa' Hnot'). auto.
Qed.

Lemma cinv_swap c : cinv (swap c) <-> cinv c.
Proof.
  destruct c as [s pa pb]. unfold cinv, swap. cbn [c_store c_a c_b].
  destruct (pending pa), (pending pb); tauto.
Qed.

Lemma act_B_swap c : act RunB c = swap (act RunA (swap c)).
Proof. destruct c as [s pa pb]. unfold act, swap. simpl. now destruct (istep s pb). Qed.

Lemma act_cinv a c : cinv c -> may_act a c = true -> cinv (act a c).
Proof.
  intros Hinv Hlock. destruct a as [| |fs].
  - now apply act_A_cinv.
  - rewrite act_B_swap. apply cinv_swap, act_A_cinv; [now apply cinv_swap|].
    destruct c; exact Hlock.
  - destruct c as [s pa pb]. destruct Hinv as (Ha & Hb & Hm). unfold cinv, consistent in *. simpl in *.
    auto.
Qed.

Lemma run_sched_cinv sched c :
  cinv c -> sched_locked sched c = true -> cinv (run_sched sched c).
Proof.
  revert c. induction sched as [|a sched IH]; intros c Hinv Hlock; [exact Hinv|].
  simpl in *. apply andb_true_iff in Hlock as [Ha Hrest]. apply IH; [|exact Hrest].
  now apply act_cinv.
Qed.

Lemma run_sched_app l1 l2 c : run_sched (l1 ++ l2) c = run_sched l2 (run_sched l1 c).
Proof. revert c. induction l1 as [|a l1 IH]; intros c; simpl; auto. Qed.

Lemma sched_locked_app l1 l2 c :
  sched_locked (l1 ++ l2) c = sched_locked l1 c && sched_locked l2 (run_sched l1 c).
Proof.
  revert c. induction l1 as [|a l1 IH]; intros c; simpl; [reflexivity|].
  rewrite IH. now rewrite andb_assoc.
Qed.

Lemma may_write_free p q : pending q = None -> may_write p q = true.
Proof. destruct p, q; simpl; congruence. Qed.

(** [n] moves of run [A] alone are [n] statements of its run. *)
Lemma run_A_repeat n s pa pb :
  run_sched (repeat RunA n) (mk_config s pa pb)
  = mk_config (fst (irun n s pa)) (snd (irun n s pa)) pb.
Proof.
  revert s pa. induction n as [|n IH]; intros s pa; [reflexivity|].
  simpl. destruct (istep s pa) as [s' pa']. apply IH.
Qed.

Lemma locked_A_repeat n s pa pb :
  pending pb = None -> sched_locked (repeat RunA n) (mk_config s pa pb) = true.
Proof.
  intros Hb. revert s pa. induction n as [|n IH]; intros s pa; [reflexivity|].
  simpl. rewrite may_write_free by exact Hb. destruct (istep s pa) as [s' pa']. apply IH.
Qed.

Lemma run_B_repeat n s pa pb :
  run_sched (repeat RunB n) (mk_config s pa pb)
  = mk_config (fst (irun n s pb)) pa (snd (irun n s pb)).
Proof.
  revert s pb. induction n as [|n IH]; intros s pb; [reflexivity|].
  simpl. destruct (istep s pb) as [s' pb']. apply IH.
Qed.

Lemma locked_B_repeat n s pa pb :
  pending pa = None -> sched_locked (repeat RunB n) (mk_config s pa pb) = true.
Proof.
  intros Ha. revert s pb. induction n as [|n IH]; intros s pb; [reflexivity|].
  simpl. rewrite may_write_free by exact Ha. destruct (istep s pb) as [s' pb']. apply IH.
Qed.

Lemma ifinal_pending p : ifinal p = true -> pending p = None.
Proof. destruct p; simpl; congruence. Qed.

End Lemmas.

(** ** Theorems *)

Section Theorems.
Context `{Pil} `{Clip}.

(** C14: with the lock, two runs and any edits of the tree, interleaved
    in any order from consistent files, leave consistent files whenever
    neither run is between its two writes: nothing saved, or a dense
    archive with the index aligned with it. *)
Theorem locked_runs_consistent s sched :
  consistent s ->
  sched_locked sched (mk_config s IStart IStart) = true ->
  let c := run_sched sched (mk_config s IStart IStart) in
  pending (c_a c) = None -> pending (c_b c) = None ->
  (st_db (c_store c) = None /\ st_ann (c_store c) = None) \/ store_inv (c_store c).
Proof.
  intros Hc Hl c Ha Hb.
  assert (Hinit : cinv (mk_config s IStart IStart)) by (repeat split; exact Hc).
  destruct (run_sched_cinv _ _ Hinit Hl) as (_ & _ & Hm). fold c in Hm.
  rewrite Ha, Hb in Hm. now apply consistent_store_inv.
Qed.

(** The lock never deadlocks: whatever locked schedule has run so
    far, it extends to a locked schedule after which both runs have ended
    (at most 17 more moves). *)
Theorem locked_runs_complete c :
  exists ext, (length ext <= 17)%nat /\ sched_locked ext c = true
    /\ ifinal (c_a (run_sched ext c)) = true /\ ifinal (c_b (run_sched ext c)) = true.
Proof.
  destruct c as [s pa pb].
  set (first := match pending pb with Some _ => [RunB] | None => [] end).
  assert (Hfirst : sched_locked first (mk_config s pa pb) = true
                   /\ pending (c_b (run_sched first (mk_config s pa pb))) = None
                   /\ c_a (run_sched first (mk_config s pa pb)) = pa).
  { subst first. destruct pb; simpl; auto. }
  destruct Hfirst as (Hl1 & Hb1 & Ha1).
  destruct (run_sched first (mk_config s pa pb)) as [s1 pa1 pb1] eqn:E1. simpl in Hb1, Ha1. subst pa1.
  set (sA := fst (irun 8 s1 pa)). set (pA := snd (irun 8 s1 pa)).
  assert (HA : run_sched (repeat RunA 8) (mk_config s1 pa pb1) = mk_config sA pA pb1)
    by apply run_A_repeat.
  assert (HB : run_sched (repeat RunB 8) (mk_config sA pA pb1)
               = mk_config (fst (irun 8 sA pb1)) pA (snd (irun 8 sA pb1)))
    by apply run_B_repeat.
  assert (HfA : ifinal pA = true) by apply (irun_terminates 8 s1 pa (irank_le_8 pa)).
  exists (first ++ repeat RunA 8 ++ repeat RunB 8).
  rewrite !sched_locked_app, !run_sched_app, E1, HA, HB, Hl1.
  rewrite locked_A_repeat, locked_B_repeat by (exact Hb1 || now apply ifinal_pending).
  repeat split; [|exact HfA | apply (irun_terminates 8 sA pb1 (irank_le_8 pb1))].
  rewrite !length_app, !repeat_length. subst first. destruct (pending pb); simpl; lia.
Qed.

End Theorems.
