(* ===== verification/QueryMachine.v ===== *)
(** * QueryMachine: [query_flow] statement by statement, with the
    reindexing policy

    Spec 4.5 describes the query flow as the states [LOAD_ARCHIVE ->
    LOAD_INDEX -> SCAN_CATALOG -> [STALE? -> reindex -> reload] ->
    ENCODE_QUERY -> RANK -> RESOLVE -> DONE], and spec 9 asks for the
    staleness branch as a policy flag [auto_reindex]. core.py has the
    branch commented out (l.60-65): the code is the machine with the flag
    off. The phase holds the local variables of [query_flow] between
    statements; the reindex runs [index_flow], which [Pipeline] shows is
    the whole statement-by-statement run, and reloads both files.

    The theorems: every query run ends within 7 statements, and with the
    flag off it is [query_flow]; with the flag on, from every reachable
    state a valid query is served from an aligned pair of files, a
    missing index included. *)
From S2P Require Import Prelude PyPath Catalog Archive Merger Index Flows Lifecycle.
Local Open Scope memery_scope.

(** The local variables of [query_flow] after each statement. *)
Inductive qphase : Type :=
| QStart                                                    (** l.48-50 *)
| QArchive (d : db)                                         (** l.54-55 [db] *)
| QIndex (d : db) (tm : option annoy)                       (** l.56-57 [treemap] *)
| QScanned (d : db) (tm : option annoy) (filepaths : list (py_path * string)) (** l.58 *)
| QChecked (d : db) (tm : option annoy)                     (** l.60-65 *)
| QEncoded (d : db) (tm : option annoy) (query_vec : list Z)  (** l.67-80 *)
| QRanked (d : db) (indexes : list nat)                     (** l.84 *)
| QDone (ranked_files : list string)                        (** l.85-89 *)
| QFailed (e : py_error).

Definition qfinal (p : qphase) : bool :=
  match p with QDone _ | QFailed _ => true | _ => false end.

Definition qrank (p : qphase) : nat :=
  match p with
  | QStart => 7 | QArchive _ => 6 | QIndex _ _ => 5 | QScanned _ _ _ => 4
  | QChecked _ _ => 3 | QEncoded _ _ _ => 2 | QRanked _ _ => 1
  | QDone _ | QFailed _ => 0
  end.

(** The condition of the commented-out l.61:
    [treemap == None or len(db) != len(filepaths)]. *)
Definition stale (d : db) (tm : option annoy) (filepaths : list (py_path * string)) : bool :=
  match tm with
  | None => true
  | Some _ => negb (Nat.eqb (length d) (length filepaths))
  end.

Section WithModels.
Context `{Pil} `{Clip}.
Variables (auto_reindex : bool) (query : option string) (image_query : option blob).

(** One statement of [query_flow]. *)
Definition qstep (s : store) (p : qphase) : store * qphase :=
  match p with
  | QStart => (s, QArchive (db_loader (st_db s)))
  | QArchive d => (s, QIndex d (treemap_loader (st_ann s)))
  | QIndex d tm => (s, QScanned d tm (get_image_files (st_fs s)))
  | QScanned d tm filepaths =>
      if auto_reindex && stale d tm filepaths then
        match index_flow s with
        | Ok (s', _) => (s', QChecked (db_loader (st_db s')) (treemap_loader (st_ann s')))
        | Raise e => (s, QFailed e)
        end
      else (s, QChecked d tm)
  | QChecked d tm =>
      match query_vector query image_query with
      | Ok v => (s, QEncoded d tm v)
      | Raise e => (s, QFailed e)
      end
  | QEncoded d tm v =>
      match tm with
      | Some t => (s, QRanked d (ranker v t))
      | None => (s, QFailed (AttributeError "get_nns_by_vector"))
      end
  | QRanked d indexes => (s, QDone (nns_to_files d indexes))
  | QDone _ | QFailed _ => (s, p)
  end.

End WithModels.

(** [n] statements of [query_flow] under the policy [auto_reindex]. *)
Abbreviation qrun auto_reindex query image_query := (run (qstep auto_reindex query image_query)).

(** ** Lemmas *)

Section Lemmas.
Context `{Pil} `{Clip}.
Variables (auto_reindex : bool) (query : option string) (image_query : option blob).

Lemma qstep_final s p : qfinal p = true -> qstep auto_reindex query image_query s p = (s, p).
Proof. destruct p; simpl; congruence. Qed.

Lemma qrank_zero p : qrank p = 0 -> qfinal p = true.
Proof. destruct p; simpl; congruence. Qed.

Lemma qstep_rank s p :
  qfinal p = false -> qrank (snd (qstep auto_reindex query image_query s p)) < qrank p.
Proof.
  destruct p; simpl; intros Hf; try discriminate;
    repeat match goal with |- context [match ?x with _ => _ end] => destruct x end; simpl; lia.
Qed.

(** From the check on, the run is [query_flow] on the store it holds. *)
Lemma qrun_checked s :
  qrun auto_reindex query image_query 3 s (QChecked (db_loader (st_db s)) (treemap_loader (st_ann s)))
  = match query_flow s query image_query with
    | Ok files => (s, QDone files)
    | Raise e => (s, QFailed e)
    end.
Proof.
  unfold query_flow. cbn [run]. unfold qstep.
  destruct (query_vector query image_query); cbn; [destruct (st_ann s)|]; reflexivity.
Qed.

(** The first three statements load and scan; the fourth reindexes when
    the policy is on and the files look stale. *)
Lemma qrun_scan s :
  qrun auto_reindex query image_query 7 s QStart =
  if auto_reindex && stale (db_loader (st_db s)) (treemap_loader (st_ann s)) (get_image_files (st_fs s))
  then match index_flow s with
       | Ok (s1, _) =>
           qrun auto_reindex query image_query 3 s1
             (QChecked (db_loader (st_db s1)) (treemap_loader (st_ann s1)))
       | Raise e => (s, QFailed e)
       end
  else qrun auto_reindex query image_query 3 s (QChecked (db_loader (st_db s)) (treemap_loader (st_ann s))).
Proof.
  do 4 rewrite run_S at 1. cbn [qstep fst snd].
  destruct (auto_reindex && _); [|reflexivity].
  destruct (index_flow s) as [[s1 p]|e]; reflexivity.
Qed.

End Lemmas.

(** ** Theorems *)

Section Theorems.
Context `{Pil} `{Clip}.

(** Every query run ends within 7 statements, whatever the policy
    and the store; with the policy off, as in core.py where the reindex
    is commented out, the run is [query_flow]: it returns its files or
    raises its exception, and never writes. *)
Theorem query_run_equiv auto_reindex query image_query s :
  qfinal (snd (qrun auto_reindex query image_query 7 s QStart)) = true
  /\ qrun false query image_query 7 s QStart
     = match query_flow s query image_query with
       | Ok files => (s, QDone files)
       | Raise e => (s, QFailed e)
       end.
Proof.
  split.
  - apply (run_terminates _ qfinal qrank); [apply qstep_final | apply qstep_rank | apply qrank_zero | reflexivity].
  - rewrite qrun_scan. apply qrun_checked.
Qed.

(** C15: with the policy on, from every reachable state, on a
    well-formed tree with a 512-dimensional encoder, a valid query is
    served: the run reindexes when [memery.ann] is missing or the counts
    disagree, never raises (no [AttributeError] on a missing index), and
    returns every path of an aligned archive exactly once. *)
Theorem query_run_auto_reindex s query image_query v :
  reachable s -> fsys_wfb (st_fs s) = true ->
  (forall b, length (encode_image b) = annoy_dim) ->
  query_vector query image_query = Ok v ->
  exists s' d files, qrun true query image_query 7 s QStart = (s', QDone files)
    /\ st_db s' = Some d /\ store_inv s' /\ Permutation files (map e_fpath (dict_values d)).
Proof.
  intros Hr Hwf Hclip Hv. pose proof (reachable_saved s Hr) as Hsaved.
  assert (Hserve : forall s1, store_inv s1 ->
    exists d files, st_db s1 = Some d
      /\ qrun true query image_query 3 s1 (QChecked (db_loader (st_db s1)) (treemap_loader (st_ann s1)))
         = (s1, QDone files)
      /\ Permutation files (map e_fpath (dict_values d))).
  { intros s1 Hinv. destruct (query_ranks_all s1 query image_query v Hinv Hv)
      as (d & t & files & Hd & Hq & _ & Hp).
    exists d, files. rewrite qrun_checked, Hq. auto. }
  rewrite qrun_scan. simpl andb.
  destruct (stale _ _ _) eqn:Hst.
  - destruct (index_flow_runs s) as (s1 & paths & Hrun).
    { apply saved_ok_run_ok; [exact Hsaved | now apply fs_entries_str_NoDup | exact Hclip]. }
    rewrite Hrun. pose proof (index_flow_saves_inv _ _ _ Hrun) as Hinv.
    destruct (Hserve s1 Hinv) as (d & files & Hd & Hq & Hp). exists s1, d, files. auto.
  - destruct Hsaved as [[_ Hann]|[Hinv _]].
    + unfold stale, treemap_loader in Hst. rewrite Hann in Hst. discriminate.
    + destruct (Hserve s Hinv) as (d & files & Hd & Hq & Hp). exists s, d, files. auto.
Qed.

End Theorems.
