(* ===== verification/Persist.v ===== *)
(** * Persist: the two saved files as bytes

    [Flows] keeps [memery.pt] and [memery.ann] as the values they hold.
    Here they are bytes ([blob]) written and read through a [Codec]:
    [torch.save]/[torch.load] for the archive, Annoy's [save]/[load] for
    the index, with the law spec 6 requires, that what is saved loads back
    ([torch_load_save], [annoy_load_save]). [db_loader] (loader.py
    l.48-53) and [treemap_loader] (l.55-62) read the bytes and raise on a
    file they cannot read; [index_flow] reads only [memery.pt] (l.18,
    through [archive_loader] l.39) and writes both (l.32); [query_flow]
    reads [memery.pt] (l.55) then [memery.ann] (l.57).

    The theorems: a [memery.pt] that [torch.load] cannot read blocks the
    root for good, while an unreadable [memery.ann] only fails queries
    until the next run, which returns and rewrites it. On saved bytes the
    byte-level flows are the value-level flows of [Flows]
    ([index_flow_bytes_save], [query_flow_bytes_save]). A concrete codec
    over lists of integers shows the laws can be met. *)
From S2P Require Import Prelude PyPath Catalog Archive Merger Index Flows.
Local Open Scope memery_scope.

(** The serializers behind the two files and their round-trip laws. *)
Class Codec : Type := {
  torch_save : db -> blob;
  torch_load : blob -> option db;
  annoy_save : list (list Z) -> blob;
  annoy_load : blob -> option (list (list Z));
  torch_load_save d : torch_load (torch_save d) = Some d;
  annoy_load_save items : annoy_load (annoy_save items) = Some items
}.

(** The persisted state with the two files as bytes. *)
Record fstore : Type := mk_fstore { ff_fs : fsys; ff_pt : option blob; ff_ann : option blob }.

Section WithCodec.
Context `{Codec}.

(** [db_loader(dbpath)] on the bytes: no file gives [{}] (l.52), a file
    [torch.load] cannot read raises. The result is the saved archive, as
    [Flows] keeps it. *)
Definition db_loader_bytes (f : option blob) : result (option db) :=
  match f with
  | None => Ok None
  | Some b =>
      match torch_load b with
      | Some d => Ok (Some d)
      | None => Raise (UnpicklingError "memery.pt")
      end
  end.

(** [treemap_loader(treepath)] on the bytes: no file gives [None] (l.61),
    a file Annoy cannot load raises. *)
Definition treemap_loader_bytes (f : option blob) : result (option (list (list Z))) :=
  match f with
  | None => Ok None
  | Some b =>
      match annoy_load b with
      | Some items => Ok (Some items)
      | None => Raise (OSError "memery.ann")
      end
  end.

(** The bytes of a value-level store. *)
Definition save_store (s : store) : fstore :=
  mk_fstore (st_fs s) (option_map torch_save (st_db s)) (option_map annoy_save (st_ann s)).

Section WithModels.
Context `{Pil} `{Clip}.

(** [index_flow(path)] on the bytes: [memery.pt] is read inside
    [archive_loader], [memery.ann] is never read, both are written. *)
Definition index_flow_bytes (fs : fstore) : result (fstore * (string * string)) :=
  saved <- db_loader_bytes (ff_pt fs) ;;
  '(s', paths) <- index_flow (mk_store (ff_fs fs) saved None) ;;
  Ok (save_store s', paths).

(** [query_flow(path, query, image_query)] on the bytes. *)
Definition query_flow_bytes (fs : fstore) (query : option string) (image_query : option blob)
  : result (list string) :=
  saved <- db_loader_bytes (ff_pt fs) ;;
  ann <- treemap_loader_bytes (ff_ann fs) ;;
  query_flow (mk_store (ff_fs fs) saved ann) query image_query.

(** The events that change the files of a root: a run of [index_flow]
    that returns, or an edit of the tree. *)
Inductive fstep : fstore -> fstore -> Prop :=
| fstep_index fs fs' paths : index_flow_bytes fs = Ok (fs', paths) -> fstep fs fs'
| fstep_files fs tree : fstep fs (mk_fstore tree (ff_pt fs) (ff_ann fs)).

(** The states reachable from [fs0] by such events. *)
Inductive freach (fs0 : fstore) : fstore -> Prop :=
| freach_refl : freach fs0 fs0
| freach_step fs fs' : freach fs0 fs -> fstep fs fs' -> freach fs0 fs'.

End WithModels.
End WithCodec.

(** ** A codec over lists of integers

    Each value is written with its length first, so a reader knows where
    it ends: a string as its character codes, a vector as its integers, a
    list as its length then its elements. *)
Local Open Scope Z_scope.

Definition dec_nat (z : Z) : option nat := if z <? 0 then None else Some (Z.to_nat z).

Definition enc_zs (v : list Z) : list Z := Z.of_nat (length v) :: v.

Definition dec_zs (l : list Z) : option (list Z * list Z) :=
  match l with
  | [] => None
  | n :: rest =>
      match dec_nat n with
      | Some k => if Nat.leb k (length rest) then Some (firstn k rest, skipn k rest) else None
      | None => None
      end
  end.

Definition enc_str (s : string) : list Z :=
  enc_zs (map (fun c => Z.of_nat (nat_of_ascii c)) (list_ascii_of_string s)).

Definition dec_str (l : list Z) : option (string * list Z) :=
  match dec_zs l with
  | Some (cs, rest) => Some (string_of_list_ascii (map (fun z => ascii_of_nat (Z.to_nat z)) cs), rest)
  | None => None
  end.

Definition enc_kv (kv : nat * entry) : list Z :=
  Z.of_nat (fst kv) :: enc_str (e_hash (snd kv)) ++ enc_str (e_fpath (snd kv)) ++ enc_zs (e_embed (snd kv)).

Definition dec_kv (l : list Z) : option ((nat * entry) * list Z) :=
  match l with
  | [] => None
  | k :: r0 =>
      match dec_nat k, dec_str r0 with
      | Some k', Some (h, r1) =>
          match dec_str r1 with
          | Some (p, r2) =>
              match dec_zs r2 with
              | Some (v, r3) => Some ((k', mk_entry h p v), r3)
              | None => None
              end
          | None => None
          end
      | _, _ => None
      end
  end.

Definition enc_list {A} (enc : A -> list Z) (xs : list A) : list Z :=
  Z.of_nat (length xs) :: List.concat (map enc xs).

Fixpoint dec_items {A} (dec : list Z -> option (A * list Z)) (n : nat) (l : list Z)
  : option (list A * list Z) :=
  match n with
  | O => Some ([], l)
  | S n' =>
      match dec l with
      | Some (x, r) =>
          match dec_items dec n' r with
          | Some (xs, r') => Some (x :: xs, r')
          | None => None
          end
      | None => None
      end
  end.

(** A whole file: the length, the elements, and nothing after them. *)
Definition dec_file {A} (dec : list Z -> option (A * list Z)) (b : list Z) : option (list A) :=
  match b with
  | n :: rest =>
      match dec_nat n with
      | Some k =>
          match dec_items dec k rest with
          | Some (xs, []) => Some xs
          | _ => None
          end
      | None => None
      end
  | [] => None
  end.

(** ** Lemmas: the list-of-integers codec round-trips *)

Lemma dec_nat_of_nat n : dec_nat (Z.of_nat n) = Some n.
Proof. unfold dec_nat. destruct (Z.ltb_spec (Z.of_nat n) 0); [lia|]. now rewrite Nat2Z.id. Qed.

Lemma dec_zs_enc v r : dec_zs (enc_zs v ++ r) = Some (v, r).
Proof.
  simpl. rewrite dec_nat_of_nat, length_app.
  rewrite (proj2 (Nat.leb_le _ _)) by lia.
  rewrite firstn_app, firstn_all, Nat.sub_diag, firstn_O, app_nil_r.
  rewrite skipn_app, skipn_all, Nat.sub_diag, skipn_O. reflexivity.
Qed.

Lemma dec_str_enc s r : dec_str (enc_str s ++ r) = Some (s, r).
Proof.
  unfold dec_str, enc_str. rewrite dec_zs_enc, map_map.
  rewrite (map_ext _ (fun c => c)) by (intros c; now rewrite Nat2Z.id, ascii_nat_embedding).
  now rewrite map_id, string_of_list_ascii_of_string.
Qed.

Lemma dec_kv_enc kv r : dec_kv (enc_kv kv ++ r) = Some (kv, r).
Proof.
  destruct kv as [k [h p v]]. unfold enc_kv. cbn [fst snd e_hash e_fpath e_embed].
  rewrite <- app_comm_cons. unfold dec_kv at 1. cbv beta iota.
  rewrite dec_nat_of_nat, <- !app_assoc, dec_str_enc, dec_str_enc, dec_zs_enc.
  reflexivity.
Qed.

Section Lists.
Context {A : Type} (enc : A -> list Z) (dec : list Z -> option (A * list Z)).
Hypothesis dec_enc : forall x r, dec (enc x ++ r) = Some (x, r).

Lemma dec_items_enc xs r :
  dec_items dec (length xs) (List.concat (map enc xs) ++ r) = Some (xs, r).
Proof.
  induction xs as [|x xs IH]; [reflexivity|]. simpl.
  rewrite <- app_assoc, dec_enc, IH. reflexivity.
Qed.

Lemma dec_file_enc xs : dec_file dec (enc_list enc xs) = Some xs.
Proof.
  unfold dec_file, enc_list. rewrite dec_nat_of_nat.
  pose proof (dec_items_enc xs []) as E. rewrite app_nil_r in E. now rewrite E.
Qed.

End Lists.

Local Close Scope Z_scope.

(** ** Lemmas: the flows on bytes *)

Section FlowLemmas.
Context `{Codec}.

Lemma db_loader_bytes_save x : db_loader_bytes (option_map torch_save x) = Ok x.
Proof. destruct x as [d|]; simpl; [now rewrite torch_load_save | reflexivity]. Qed.

Lemma treemap_loader_bytes_save x : treemap_loader_bytes (option_map annoy_save x) = Ok x.
Proof. destruct x as [items|]; simpl; [now rewrite annoy_load_save | reflexivity]. Qed.

Context `{Pil} `{Clip}.

(** [index_flow] never reads [memery.ann]. *)
Lemma index_flow_ann_irrelevant fs saved ann :
  index_flow (mk_store fs saved ann) = index_flow (mk_store fs saved None).
Proof. reflexivity. Qed.

Lemma index_flow_bytes_save s :
  index_flow_bytes (save_store s)
  = match index_flow s with
    | Ok (s', paths) => Ok (save_store s', paths)
    | Raise e => Raise e
    end.
Proof.
  destruct s as [fs saved ann]. unfold index_flow_bytes, save_store. cbn [ff_pt ff_fs st_db st_fs].
  rewrite db_loader_bytes_save. cbn [bind]. rewrite <- (index_flow_ann_irrelevant fs saved ann).
  now destruct (index_flow (mk_store fs saved ann)) as [[s' paths]|e].
Qed.

Lemma query_flow_bytes_save s query image_query :
  query_flow_bytes (save_store s) query image_query = query_flow s query image_query.
Proof.
  destruct s as [fs saved ann]. unfold query_flow_bytes, save_store. cbn [ff_pt ff_ann ff_fs st_db st_ann st_fs].
  now rewrite db_loader_bytes_save, treemap_loader_bytes_save.
Qed.

End FlowLemmas.

(** ** Theorems *)

Section Theorems.
Context `{Codec} `{Pil} `{Clip}.

(** C16: a [memery.pt] that [torch.load] cannot read blocks its root for
    good: every [index_flow] raises [UnpicklingError] before writing, so
    no run replaces the file, edits of the tree do not help, and every
    query raises too. *)
Theorem corrupt_archive_stuck b fs0 fs :
  torch_load b = None -> ff_pt fs0 = Some b -> freach fs0 fs ->
  ff_pt fs = Some b
  /\ index_flow_bytes fs = Raise (UnpicklingError "memery.pt")
  /\ forall query image_query,
       query_flow_bytes fs query image_query = Raise (UnpicklingError "memery.pt").
Proof.
  intros Hb Hfs0 Hr.
  assert (Hpt : ff_pt fs = Some b).
  { induction Hr as [|fs1 fs2 _ IH Hs]; [exact Hfs0|].
    destruct Hs as [fs1 fs2 paths Hrun|fs1 tree]; [|exact IH].
    unfold index_flow_bytes in Hrun. rewrite IH in Hrun. simpl in Hrun. rewrite Hb in Hrun. discriminate. }
  split; [exact Hpt|]. unfold index_flow_bytes, query_flow_bytes. rewrite Hpt. simpl. rewrite Hb.
  split; reflexivity.
Qed.

(** C17: a [memery.ann] Annoy cannot load only fails queries: while
    the archive reads, every query raises [OSError]; but [index_flow]
    never reads the index, so on a tree and archive a run can index
    ([run_ok]) it returns, and writes an aligned pair of files on which
    queries are answered as in [Flows]. *)
Theorem corrupt_index_repaired b fs pt saved :
  annoy_load b = None -> db_loader_bytes pt = Ok saved -> run_ok (mk_store fs saved None) ->
  (forall query image_query,
     query_flow_bytes (mk_fstore fs pt (Some b)) query image_query = Raise (OSError "memery.ann"))
  /\ exists fs' paths, index_flow_bytes (mk_fstore fs pt (Some b)) = Ok (fs', paths)
     /\ exists s', fs' = save_store s' /\ store_inv s'
       /\ forall query image_query, query_flow_bytes fs' query image_query = query_flow s' query image_query.
Proof.
  intros Hb Hpt Hok. unfold query_flow_bytes, index_flow_bytes. cbn [ff_pt ff_ann ff_fs].
  rewrite Hpt. cbn [bind treemap_loader_bytes]. rewrite Hb. split; [reflexivity|].
  destruct (index_flow_runs _ Hok) as (s' & paths & Hi). rewrite Hi.
  exists (save_store s'), paths. split; [reflexivity|].
  exists s'. split; [reflexivity|]. split; [exact (index_flow_saves_inv _ _ _ Hi)|].
  intros query image_query. apply query_flow_bytes_save.
Qed.

End Theorems.
