(* ===== verification/Scenarios.v ===== *)
(** * Scenarios: concrete runs of the two flows

    A two-image directory, a PIL that accepts any non-empty file, and a
    CLIP whose image encoder sends the bytes [[1]] to [e1] and everything
    else to [e2] (two orthogonal 512-dimensional vectors). The examples
    run [index_flow] and [query_flow] on them: the end-to-end example of
    the spec (section 8.6) and the runs behind the findings (a moved file,
    a second file with the same name and second, an edit within the same
    second, an upper-case extension). The witnesses apply the general
    theorems at these inputs. *)
From S2P Require Import Prelude PyPath Catalog Archive Merger Index Flows Ranking Lifecycle Pipeline Concurrency QueryMachine Persist.
Local Open Scope string_scope.
Local Open Scope memery_scope.

Definition e1 : list Z := (1 :: repeat 0 511)%Z.
Definition e2 : list Z := (0 :: 1 :: repeat 0 510)%Z.

Definition pil_nonempty : Pil := {| pil_verify := fun b => match b with [] => false | _ => true end |}.

Definition clip_demo : Clip := {|
  encode_image := fun b => if list_eq_dec Z.eq_dec b [1%Z] then e1 else e2;
  encode_text := fun q => if String.eqb q "a" then e1 else e2;
  encode_query_image := fun _ => e2 |}.

#[local] Existing Instances pil_nonempty clip_demo.

(** [photos/a.jpg] (mtime 100.0) and [photos/b.png] (mtime 200.0). *)
Definition fs_ab : fsys := {| fs_root := ["photos"];
  fs_tree := DirNode "photos" "50.0" [FileNode "a.jpg" "100.0" [1%Z]; FileNode "b.png" "200.0" [2%Z]] |}.

Definition store0 : store := mk_store fs_ab None None.

(** The saved state after indexing [fs_ab]. *)
Definition store1 : store :=
  Eval vm_compute in match index_flow store0 with Ok (s, _) => s | Raise _ => store0 end.

(** [a.jpg] moved into [photos/sub/], keeping its mtime ([mv] does). *)
Definition fs_moved : fsys := {| fs_root := ["photos"];
  fs_tree := DirNode "photos" "50.0"
    [DirNode "sub" "60.0" [FileNode "a.jpg" "100.0" [1%Z]]; FileNode "b.png" "200.0" [2%Z]] |}.

(** A different image [photos/sub/a.jpg] with the same name and second. *)
Definition fs_twin : fsys := {| fs_root := ["photos"];
  fs_tree := DirNode "photos" "50.0"
    [FileNode "a.jpg" "100.0" [1%Z]; DirNode "sub" "60.0" [FileNode "a.jpg" "100.9" [3%Z]];
     FileNode "b.png" "200.0" [2%Z]] |}.

(** [a.jpg] rewritten within the same second (mtime 100.0 to 100.7). *)
Definition fs_edited : fsys := {| fs_root := ["photos"];
  fs_tree := DirNode "photos" "50.0" [FileNode "a.jpg" "100.7" [2%Z]; FileNode "b.png" "200.0" [2%Z]] |}.

(** [b.png] deleted. *)
Definition fs_a : fsys := {| fs_root := ["photos"];
  fs_tree := DirNode "photos" "50.0" [FileNode "a.jpg" "100.0" [1%Z]] |}.

(** [a.jpg] rewritten a second later (mtime 101.0). *)
Definition fs_touched : fsys := {| fs_root := ["photos"];
  fs_tree := DirNode "photos" "50.0" [FileNode "a.jpg" "101.0" [2%Z]; FileNode "b.png" "200.0" [2%Z]] |}.

(** A saved archive whose entry for [a.jpg] has three dimensions. *)
Definition store_bad_dim : store :=
  mk_store fs_ab (Some [(0, mk_entry "a_100" "photos/a.jpg" [1%Z; 2%Z; 3%Z])]) None.

(** A camera file with an upper-case extension. *)
Definition fs_upper : fsys := {| fs_root := ["photos"];
  fs_tree := DirNode "photos" "50.0" [FileNode "IMG_0001.JPG" "100.0" [1%Z]] |}.

(** The archive saved by the first run. *)
Definition db1 : db := Eval vm_compute in db_loader (st_db store1).

(** The paths [save_archives] returns for [photos]. *)
Definition saved_paths : string * string := ("photos/memery.pt", "photos/memery.ann").

(** Index [s], then query the saved state. *)
Definition index_then_query (s : store) (query : option string) (image_query : option blob)
  : result (list string) :=
  r <- index_flow s ;; query_flow (fst r) query image_query.

Definition rescan (fs : fsys) (s : store) : store := mk_store fs (st_db s) (st_ann s).

(** The files written by the codec over lists of integers: every value
    with its length first. *)
#[local] Instance list_codec : Codec := {|
  torch_save := enc_list enc_kv;
  torch_load := dec_file dec_kv;
  annoy_save := enc_list enc_zs;
  annoy_load := dec_file dec_zs;
  torch_load_save := dec_file_enc enc_kv dec_kv dec_kv_enc;
  annoy_load_save := dec_file_enc enc_zs dec_zs dec_zs_enc
|}.

(** A root whose [memery.pt] is empty, hence unreadable. *)
Definition froot_corrupt : fstore := mk_fstore fs_ab (Some []) None.

(** [a.jpg] deleted and [c.jpg] added, whose bytes encode to [e1]. *)
Definition fs_swap : fsys := {| fs_root := ["photos"];
  fs_tree := DirNode "photos" "50.0" [FileNode "b.png" "200.0" [2%Z]; FileNode "c.jpg" "300.0" [1%Z]] |}.

(** Two runs on [photos] without a lock: [A] runs up to its build, the
    user swaps [a.jpg] for [c.jpg], [B] runs up to its build, then [A]
    writes [memery.pt], [B] writes both files, and [A] writes
    [memery.ann] last. *)
Definition sched_race : list actor :=
  repeat RunA 6 ++ [Edit fs_swap] ++ repeat RunB 6 ++ [RunA; RunB; RunB; RunA].

(** The same moves, but [A] writes both files before [B] writes. *)
Definition sched_serial : list actor :=
  repeat RunA 6 ++ [Edit fs_swap] ++ repeat RunB 6 ++ [RunA; RunA; RunB; RunB].

Definition race_end : config := Eval vm_compute in run_sched sched_race (mk_config store1 IStart IStart).

(** The saved state after indexing [fs_twin] from scratch: both [a.jpg]
    files are new, so both are encoded. *)
Definition store_twin : store :=
  Eval vm_compute in
  match index_flow (mk_store fs_twin None None) with Ok (s, _) => s | Raise _ => store0 end.

(** ** The end-to-end example of the spec (section 8.6) *)

(** indexing [photos/a.jpg] (t = 100, embedding [e1]) and
    [photos/b.png] (t = 200, embedding [e2]) saves the archive
    [{0: a, 1: b}] with keys ["b_200"] and ["b_200"], and a query whose
    vector is [e1] returns [a.jpg] first, then [b.png]. *)
Example end_to_end_query :
  index_flow store0 = Ok (store1, ("photos/memery.pt", "photos/memery.ann"))
  /\ st_db store1 = Some [(0, mk_entry "a_100" "photos/a.jpg" e1); (1, mk_entry "b_200" "photos/b.png" e2)]
  /\ query_flow store1 (Some "a") None = Ok ["photos/a.jpg"; "photos/b.png"].
Proof. split; [|split]; vm_compute; reflexivity. Qed.

(** ** The runs behind the findings *)

(** a file moved to a subdirectory keeps its name and mtime, hence its
    key: the next [index_flow] reuses the old entry with the old path, and
    queries return ["photos/a.jpg"], which no longer exists. *)
Example moved_file_keeps_stale_path :
  fs_lookup fs_moved ["photos"; "a.jpg"] = None
  /\ index_then_query (rescan fs_moved store1) (Some "a") None
     = Ok ["photos/a.jpg"; "photos/b.png"].
Proof. split; vm_compute; reflexivity. Qed.

(** a second, different image with the same name and the same mtime
    second in another directory is never encoded: its key is already in
    the archive, so no query ever returns it. *)
Example twin_file_never_indexed :
  verify_image fs_twin ["photos"; "sub"; "a.jpg"] = true
  /\ index_then_query (rescan fs_twin store1) None (Some [3%Z])
     = Ok ["photos/b.png"; "photos/a.jpg"].
Proof. split; vm_compute; reflexivity. Qed.

(** an edit that keeps the mtime within the same second keeps the key,
    and the archive keeps the old embedding [e1] although the new bytes
    encode to [e2]. *)
Example same_second_edit_keeps_embedding :
  encode_image [2%Z] = e2
  /\ exists s paths, index_flow (rescan fs_edited store1) = Ok (s, paths)
     /\ st_db s = Some [(0, mk_entry "a_100" "photos/a.jpg" e1); (1, mk_entry "b_200" "photos/b.png" e2)].
Proof. split; [reflexivity|]. do 2 eexists. split; vm_compute; reflexivity. Qed.

(** the extension test is case-sensitive: ["IMG_0001.JPG"] is a valid
    image that the scan never lists. *)
Example uppercase_extension_skipped :
  verify_image fs_upper ["photos"; "IMG_0001.JPG"] = true /\ get_image_files fs_upper = [].
Proof. split; vm_compute; reflexivity. Qed.

(** ** Witnesses *)

(** The state saved by the first run satisfies the invariant. *)
Lemma store1_inv : store_inv store1.
Proof.
  exists db1, (map e_embed (dict_values db1)).
  split; [reflexivity|]. split; [vm_compute; reflexivity|]. split; [vm_compute; reflexivity|].
  intros [|[|[|i]]]; reflexivity.
Qed.

Lemma clip_demo_dims b : length (encode_image b) = annoy_dim.
Proof. simpl. destruct (list_eq_dec Z.eq_dec b [1%Z]); reflexivity. Qed.

(** The first run from an empty root, then the user touches [a.jpg]. *)
Lemma store1_reachable : reachable store1.
Proof.
  apply (reachable_step store0); [apply reachable_init|].
  apply (step_index _ _ saved_paths). vm_compute. reflexivity.
Qed.

Lemma touched_reachable : reachable (rescan fs_touched store1).
Proof. apply (reachable_step store1); [apply store1_reachable | apply step_files]. Qed.

Lemma index_flow_ok_witness : run_ok store0 /\ exists s' paths, index_flow store0 = Ok (s', paths).
Proof.
  assert (H : run_ok store0).
  { split; [vm_compute; constructor|]. split; [vm_compute; constructor|]. split.
    - vm_compute. constructor; [simpl; intuition discriminate|]. constructor; [simpl; tauto|]. constructor.
    - intros b. simpl. destruct (list_eq_dec Z.eq_dec b [1%Z]); reflexivity. }
  split; [exact H | exact (index_flow_ok store0 H)].
Defined.

Lemma archive_loader_reconciles_witness :
  dict_wf (db_loader (st_db store1))
  /\ exists r nf, archive_loader fs_touched (get_image_files fs_touched) (st_db store1) = Ok (r, nf)
     /\ reconciles fs_touched (get_image_files fs_touched) (db_loader (st_db store1)) r nf.
Proof.
  assert (H : dict_wf (db_loader (st_db store1))).
  { vm_compute. constructor; [simpl; intuition discriminate|]. constructor; [simpl; tauto|]. constructor. }
  split; [exact H | exact (archive_loader_reconciles _ _ _ H)].
Defined.

Lemma index_flow_idempotent_witness :
  dict_wf (db_loader (st_db store0)) /\ index_flow store0 = Ok (store1, saved_paths)
  /\ exists d, st_db store1 = Some d
    /\ archive_loader (st_fs store1) (get_image_files (st_fs store1)) (st_db store1) = Ok (d, [])
    /\ forall clip' : Clip, @index_flow _ clip' store1 = Ok (store1, saved_paths).
Proof.
  assert (H : dict_wf (db_loader (st_db store0))) by (vm_compute; constructor).
  assert (Hrun : index_flow store0 = Ok (store1, saved_paths)) by (vm_compute; reflexivity).
  split; [exact H|]. split; [exact Hrun | exact (index_flow_idempotent _ _ _ H Hrun)].
Defined.

(** [a.jpg] moved into [photos/sub/] with its mtime: the keys are those
    of the first scan, so the second run encodes nothing and keeps the
    entry with the old path ["photos/a.jpg"]. *)
Lemma index_flow_same_keys_witness :
  dict_wf (db_loader (st_db store0)) /\ index_flow store0 = Ok (store1, saved_paths)
  /\ fs_root fs_moved = fs_root (st_fs store0)
  /\ incl (map snd (get_image_files (st_fs store0))) (map snd (get_image_files fs_moved))
  /\ (forall p' h, In (p', h) (get_image_files fs_moved) -> verify_image fs_moved p' = true ->
       exists p, In (p, h) (get_image_files (st_fs store0)) /\ verify_image (st_fs store0) p = true)
  /\ exists d, st_db store1 = Some d
    /\ archive_loader fs_moved (get_image_files fs_moved) (st_db store1) = Ok (d, [])
    /\ forall clip' : Clip,
         @index_flow _ clip' (mk_store fs_moved (st_db store1) (st_ann store1))
         = Ok (mk_store fs_moved (st_db store1) (st_ann store1), saved_paths).
Proof.
  assert (H : dict_wf (db_loader (st_db store0))) by (vm_compute; constructor).
  assert (Hrun : index_flow store0 = Ok (store1, saved_paths)) by (vm_compute; reflexivity).
  assert (Hroot : fs_root fs_moved = fs_root (st_fs store0)) by reflexivity.
  assert (E0 : get_image_files (st_fs store0)
               = [(["photos"; "a.jpg"], "a_100"); (["photos"; "b.png"], "b_200")])
    by (vm_compute; reflexivity).
  assert (E1 : get_image_files fs_moved
               = [(["photos"; "b.png"], "b_200"); (["photos"; "sub"; "a.jpg"], "a_100")])
    by (vm_compute; reflexivity).
  assert (Hkeep : incl (map snd (get_image_files (st_fs store0))) (map snd (get_image_files fs_moved)))
    by (rewrite E0, E1; intros x Hx; simpl in *; tauto).
  assert (Hknown : forall p' h, In (p', h) (get_image_files fs_moved) -> verify_image fs_moved p' = true ->
            exists p, In (p, h) (get_image_files (st_fs store0)) /\ verify_image (st_fs store0) p = true).
  { rewrite E0, E1. intros p' h [Hp|[Hp|[]]] _; injection Hp as <- <-.
    - exists ["photos"; "b.png"]. split; [right; left; reflexivity | vm_compute; reflexivity].
    - exists ["photos"; "a.jpg"]. split; [left; reflexivity | vm_compute; reflexivity]. }
  split; [exact H|]. split; [exact Hrun|]. split; [exact Hroot|]. split; [exact Hkeep|].
  split; [exact Hknown|].
  exact (index_flow_same_keys _ _ _ _ H Hrun Hroot Hkeep Hknown).
Defined.

Lemma index_flow_store_inv_witness :
  index_flow store0 = Ok (store1, saved_paths) /\ store_inv store1.
Proof.
  assert (Hrun : index_flow store0 = Ok (store1, saved_paths)) by (vm_compute; reflexivity).
  split; [exact Hrun | exact (index_flow_store_inv _ _ _ Hrun)].
Defined.

Lemma index_flow_drops_deleted_witness :
  dict_wf (db_loader (st_db store1)) /\ ~ In "b_200" (map snd (get_image_files fs_a))
  /\ exists s' paths, index_flow (rescan fs_a store1) = Ok (s', paths)
     /\ exists d, st_db s' = Some d /\ ~ In "b_200" (map e_hash (dict_values d)).
Proof.
  assert (Hwf : dict_wf (db_loader (st_db store1))).
  { vm_compute. constructor; [simpl; intuition discriminate|]. constructor; [simpl; tauto|]. constructor. }
  assert (Hgone : ~ In "b_200" (map snd (get_image_files fs_a))) by (vm_compute; intuition discriminate).
  split; [exact Hwf|]. split; [exact Hgone|].
  destruct (index_flow (rescan fs_a store1)) as [[s' paths]|e] eqn:Hrun; [|vm_compute in Hrun; discriminate].
  exists s', paths. split; [reflexivity|].
  exact (index_flow_drops_deleted (rescan fs_a store1) s' paths "b_200" Hwf Hrun Hgone).
Defined.

Lemma index_flow_encodes_new_witness :
  exists s' paths, index_flow (rescan fs_touched store1) = Ok (s', paths)
  /\ exists d, st_db s' = Some d /\ In (mk_entry "a_101" "photos/a.jpg" (encode_image [2%Z])) (dict_values d).
Proof.
  assert (Hwf : dict_wf (db_loader (st_db (rescan fs_touched store1)))).
  { vm_compute. constructor; [simpl; intuition discriminate|]. constructor; [simpl; tauto|]. constructor. }
  assert (Hfs : NoDup (map (fun e => py_str (fst e)) (fs_entries (st_fs (rescan fs_touched store1))))).
  { vm_compute. constructor; [simpl; intuition discriminate|]. constructor; [simpl; tauto|]. constructor. }
  assert (Hin : In (["photos"; "a.jpg"], "a_101") (get_image_files (st_fs (rescan fs_touched store1))))
    by (vm_compute; left; reflexivity).
  assert (Hold : ~ In "a_101" (map e_hash (dict_values (db_loader (st_db (rescan fs_touched store1))))))
    by (vm_compute; intuition discriminate).
  assert (Hl : fs_lookup (st_fs (rescan fs_touched store1)) ["photos"; "a.jpg"]
               = Some (FileNode "a.jpg" "101.0" [2%Z])) by (vm_compute; reflexivity).
  destruct (index_flow (rescan fs_touched store1)) as [[s' paths]|e] eqn:Hrun;
    [|vm_compute in Hrun; discriminate].
  exists s', paths. split; [reflexivity|].
  exact (index_flow_encodes_new _ _ _ _ _ _ _ _ Hwf Hfs Hrun Hin Hold Hl eq_refl).
Defined.

Lemma query_flow_ranks_all_witness :
  store_inv store1 /\ query_vector (Some "a") None = Ok e1
  /\ exists d t files, st_db store1 = Some d /\ query_flow store1 (Some "a") None = Ok files
     /\ files = nns_to_files d (ranker e1 t) /\ Permutation files (map e_fpath (dict_values d)).
Proof.
  assert (Hinv : store_inv store1) by exact store1_inv.
  assert (Hv : query_vector (Some "a") None = Ok e1) by reflexivity.
  split; [exact Hinv|]. split; [exact Hv | exact (query_flow_ranks_all _ _ _ _ Hinv Hv)].
Defined.

Lemma index_flow_bad_dimension_witness :
  exists a nf blobs,
    archive_loader (st_fs store_bad_dim) (get_image_files (st_fs store_bad_dim)) (st_db store_bad_dim)
      = Ok (a, nf)
    /\ crafter (st_fs store_bad_dim) nf = Ok blobs
    /\ In (mk_entry "a_100" "photos/a.jpg" [1%Z; 2%Z; 3%Z]) (dict_values (join_all a nf (image_encoder blobs)))
    /\ length (e_embed (mk_entry "a_100" "photos/a.jpg" [1%Z; 2%Z; 3%Z])) <> annoy_dim
    /\ exists why, index_flow store_bad_dim = Raise (AnnoyError why).
Proof.
  destruct (archive_loader (st_fs store_bad_dim) (get_image_files (st_fs store_bad_dim)) (st_db store_bad_dim))
    as [[a nf]|err] eqn:Hal; [|vm_compute in Hal; discriminate].
  pose proof Hal as Hal'. vm_compute in Hal'. inversion Hal'; subst a nf.
  destruct (crafter (st_fs store_bad_dim) [("photos/b.png", "b_200")]) as [blobs|err] eqn:Hcr;
    [|vm_compute in Hcr; discriminate].
  pose proof Hcr as Hcr'. vm_compute in Hcr'. inversion Hcr'; subst blobs.
  assert (Hin : In (mk_entry "a_100" "photos/a.jpg" [1%Z; 2%Z; 3%Z])
                   (dict_values (join_all [(0, mk_entry "a_100" "photos/a.jpg" [1%Z; 2%Z; 3%Z])]
                                          [("photos/b.png", "b_200")] (image_encoder [[2%Z]]))))
    by (vm_compute; left; reflexivity).
  assert (Hbad : length (e_embed (mk_entry "a_100" "photos/a.jpg" [1%Z; 2%Z; 3%Z])) <> annoy_dim)
    by (vm_compute; discriminate).
  do 3 eexists. split; [exact Hal|]. split; [exact Hcr|]. split; [exact Hin|]. split; [exact Hbad|].
  exact (index_flow_bad_dimension _ _ _ _ _ Hal Hcr Hin Hbad).
Defined.


Lemma reachable_saved_ok_witness : reachable store1 /\ saved_ok store1.
Proof. split; [exact store1_reachable | exact (reachable_saved_ok _ store1_reachable)]. Defined.

Lemma reachable_index_ok_witness :
  reachable (rescan fs_touched store1) /\ fsys_wfb fs_touched = true
  /\ exists s' paths, index_flow (rescan fs_touched store1) = Ok (s', paths).
Proof.
  assert (Hwf : fsys_wfb fs_touched = true) by reflexivity.
  split; [exact touched_reachable|]. split; [exact Hwf|].
  exact (reachable_index_ok _ touched_reachable Hwf clip_demo_dims).
Defined.

Lemma reachable_sizes_agree_witness :
  reachable store1 /\ st_db store1 = Some db1
  /\ st_ann store1 = Some (map e_embed (dict_values db1))
  /\ length (map e_embed (dict_values db1)) = length db1
  /\ Forall (fun v => length v = annoy_dim) (map e_embed (dict_values db1)).
Proof.
  assert (Hd : st_db store1 = Some db1) by (vm_compute; reflexivity).
  assert (Ha : st_ann store1 = Some (map e_embed (dict_values db1))) by (vm_compute; reflexivity).
  do 3 (split; [assumption || exact store1_reachable|]).
  exact (reachable_sizes_agree _ _ _ store1_reachable Hd Ha).
Defined.


Lemma archive_loader_scan_order_witness :
  dict_wf (db_loader (st_db store1))
  /\ Permutation (get_image_files fs_touched) (rev (get_image_files fs_touched))
  /\ exists r nf nf',
    archive_loader fs_touched (get_image_files fs_touched) (st_db store1) = Ok (r, nf)
    /\ archive_loader fs_touched (rev (get_image_files fs_touched)) (st_db store1) = Ok (r, nf')
    /\ Permutation nf nf'.
Proof.
  assert (H : dict_wf (db_loader (st_db store1))).
  { vm_compute. constructor; [simpl; intuition discriminate|]. constructor; [simpl; tauto|]. constructor. }
  assert (Hp : Permutation (get_image_files fs_touched) (rev (get_image_files fs_touched)))
    by apply Permutation_rev.
  split; [exact H|]. split; [exact Hp|]. exact (archive_loader_scan_order _ _ _ _ H Hp).
Defined.

Lemma query_flow_refines_rank_witness :
  store_inv store1 /\ st_db store1 = Some db1 /\ query_vector (Some "a") None = Ok e1
  /\ (exists es, stable_rank (entry_key e1) (dict_values db1) es)
  /\ forall es, stable_rank (entry_key e1) (dict_values db1) es ->
       query_flow store1 (Some "a") None = Ok (map e_fpath es).
Proof.
  assert (Hd : st_db store1 = Some db1) by (vm_compute; reflexivity).
  assert (Hv : query_vector (Some "a") None = Ok e1) by reflexivity.
  split; [exact store1_inv|]. split; [exact Hd|]. split; [exact Hv|].
  exact (query_flow_refines_rank _ _ _ _ _ store1_inv Hd Hv).
Defined.


Lemma archive_comp_equiv_witness :
  dict_wf db1
  /\ archive_comp db1 ["b_200"] db1 0
     = Ok (filter (fun kv => py_in (e_hash (snd kv)) ["b_200"]) (enumerate 0 (dict_values db1))).
Proof.
  assert (H : dict_wf db1).
  { vm_compute. constructor; [simpl; intuition discriminate|]. constructor; [simpl; tauto|]. constructor. }
  split; [exact H | exact (archive_comp_equiv _ _ H)].
Defined.

(** the scan in [query_flow] (core.py l.58) is never used: after
    [b.png] is deleted from an indexed root, a query of the state reached
    still returns ["photos/b.png"], a path that no longer exists. *)
Example deleted_file_still_returned :
  reachable (rescan fs_a store1)
  /\ ~ In ["photos"; "b.png"] (map fst (fs_entries fs_a))
  /\ query_flow (rescan fs_a store1) (Some "b") None = Ok ["photos/b.png"; "photos/a.jpg"].
Proof.
  split; [apply (reachable_step store1); [exact store1_reachable | apply step_files]|].
  split; [simpl; intuition discriminate | vm_compute; reflexivity].
Qed.

(** deletion does not propagate past a twin: [photos/a.jpg] and
    [photos/sub/a.jpg] (same name, same second) are both indexed from
    scratch; after [photos/sub/a.jpg] is deleted, a new run keeps its
    entry, since its key is still scanned, and the query returns it. *)
Example deleted_twin_survives :
  ~ In ["photos"; "sub"; "a.jpg"] (map fst (fs_entries fs_ab))
  /\ option_map (map (fun kv => e_fpath (snd kv))) (st_db store_twin)
     = Some ["photos/a.jpg"; "photos/b.png"; "photos/sub/a.jpg"]
  /\ index_then_query (rescan fs_ab store_twin) None (Some [3%Z])
     = Ok ["photos/b.png"; "photos/sub/a.jpg"; "photos/a.jpg"].
Proof. split; [simpl; intuition discriminate | split; vm_compute; reflexivity]. Qed.

(** without a lock two runs can interleave their writes: both
    succeed, but [memery.pt] is [B]'s archive ([b.png], [c.jpg]) and
    [memery.ann] is [A]'s index ([a.jpg], [b.png]); the files are not
    aligned, and a query whose vector is [c.jpg]'s embedding returns
    [b.png] first. The lock refuses this schedule. *)
Example unlocked_runs_misalign :
  race_end = run_sched sched_race (mk_config store1 IStart IStart)
  /\ sched_locked sched_race (mk_config store1 IStart IStart) = false
  /\ ifinal (c_a race_end) = true /\ ifinal (c_b race_end) = true
  /\ option_map (map (fun kv => e_fpath (snd kv))) (st_db (c_store race_end))
     = Some ["photos/b.png"; "photos/c.jpg"]
  /\ ~ store_inv (c_store race_end)
  /\ query_flow (c_store race_end) (Some "a") None = Ok ["photos/b.png"; "photos/c.jpg"].
Proof.
  split; [vm_compute; reflexivity|]. split; [vm_compute; reflexivity|].
  split; [reflexivity|]. split; [reflexivity|]. split; [vm_compute; reflexivity|].
  split; [|vm_compute; reflexivity].
  intros (d & items & Hd & Ha & _ & Hal). vm_compute in Hd, Ha.
  injection Hd as <-. injection Ha as <-. specialize (Hal 0). vm_compute in Hal. discriminate.
Qed.

Lemma store1_consistent : consistent store1.
Proof.
  right. exists db1, (mk_annoy annoy_dim (map e_embed (dict_values db1))).
  split; [vm_compute; reflexivity|]. split; [vm_compute; reflexivity|].
  split; vm_compute; reflexivity.
Qed.

Lemma locked_runs_consistent_witness :
  consistent store1
  /\ sched_locked sched_serial (mk_config store1 IStart IStart) = true
  /\ pending (c_a (run_sched sched_serial (mk_config store1 IStart IStart))) = None
  /\ pending (c_b (run_sched sched_serial (mk_config store1 IStart IStart))) = None
  /\ ((st_db (c_store (run_sched sched_serial (mk_config store1 IStart IStart))) = None
       /\ st_ann (c_store (run_sched sched_serial (mk_config store1 IStart IStart))) = None)
      \/ store_inv (c_store (run_sched sched_serial (mk_config store1 IStart IStart)))).
Proof.
  assert (Hl : sched_locked sched_serial (mk_config store1 IStart IStart) = true)
    by (vm_compute; reflexivity).
  assert (Ha : pending (c_a (run_sched sched_serial (mk_config store1 IStart IStart))) = None)
    by (vm_compute; reflexivity).
  assert (Hb : pending (c_b (run_sched sched_serial (mk_config store1 IStart IStart))) = None)
    by (vm_compute; reflexivity).
  split; [exact store1_consistent|]. split; [exact Hl|]. split; [exact Ha|]. split; [exact Hb|].
  exact (locked_runs_consistent _ _ store1_consistent Hl Ha Hb).
Defined.

Lemma index_run_recovers_witness :
  run_ok (rescan fs_swap store1)
  /\ exists s' paths, index_flow (fst (irun 7 (rescan fs_swap store1) IStart)) = Ok (s', paths)
     /\ store_inv s'.
Proof.
  assert (H : run_ok (rescan fs_swap store1)).
  { split; [vm_compute; constructor; [simpl; intuition discriminate|]; constructor; [simpl; tauto|constructor]|].
    split; [vm_compute; repeat constructor|]. split.
    - vm_compute. constructor; [simpl; intuition discriminate|]. constructor; [simpl; tauto|]. constructor.
    - exact clip_demo_dims. }
  split; [exact H | exact (index_run_recovers _ 7 H)].
Defined.

(** the staleness check of the commented-out l.61 compares counts
    only. With the policy on, deleting [b.png] is caught: the run
    reindexes and [b.png] is no longer returned. Swapping [a.jpg] for
    [c.jpg] keeps two files on both sides: the check passes, no reindex
    happens, and the query returns the deleted [a.jpg] and never the new
    [c.jpg]. *)
Example auto_reindex_count_check :
  snd (qrun true (Some "b") None 7 (rescan fs_a store1) QStart) = QDone ["photos/a.jpg"]
  /\ stale (db_loader (st_db store1)) (treemap_loader (st_ann store1)) (get_image_files fs_swap) = false
  /\ snd (qrun true (Some "a") None 7 (rescan fs_swap store1) QStart)
     = QDone ["photos/a.jpg"; "photos/b.png"].
Proof. split; [|split]; vm_compute; reflexivity. Qed.

Lemma query_run_auto_reindex_witness :
  reachable store0 /\ fsys_wfb (st_fs store0) = true /\ query_vector (Some "a") None = Ok e1
  /\ exists s' d files, qrun true (Some "a") None 7 store0 QStart = (s', QDone files)
    /\ st_db s' = Some d /\ store_inv s' /\ Permutation files (map e_fpath (dict_values d)).
Proof.
  assert (Hr : reachable store0) by apply reachable_init.
  assert (Hwf : fsys_wfb (st_fs store0) = true) by reflexivity.
  assert (Hv : query_vector (Some "a") None = Ok e1) by reflexivity.
  split; [exact Hr|]. split; [exact Hwf|]. split; [exact Hv|].
  exact (query_run_auto_reindex _ _ _ _ Hr Hwf clip_demo_dims Hv).
Defined.

Lemma corrupt_archive_stuck_witness :
  torch_load [] = None /\ ff_pt froot_corrupt = Some []
  /\ freach froot_corrupt (mk_fstore fs_a (Some []) None)
  /\ ff_pt (mk_fstore fs_a (Some []) None) = Some []
  /\ index_flow_bytes (mk_fstore fs_a (Some []) None) = Raise (UnpicklingError "memery.pt")
  /\ forall query image_query,
       query_flow_bytes (mk_fstore fs_a (Some []) None) query image_query
       = Raise (UnpicklingError "memery.pt").
Proof.
  assert (Hb : torch_load [] = None) by reflexivity.
  assert (H0 : ff_pt froot_corrupt = Some []) by reflexivity.
  assert (Hr : freach froot_corrupt (mk_fstore fs_a (Some []) None))
    by exact (freach_step _ _ _ (freach_refl _) (fstep_files froot_corrupt fs_a)).
  split; [exact Hb|]. split; [exact H0|]. split; [exact Hr|].
  exact (corrupt_archive_stuck _ _ _ Hb H0 Hr).
Defined.

Lemma corrupt_index_repaired_witness :
  annoy_load [] = None
  /\ db_loader_bytes (Some (torch_save db1)) = Ok (Some db1)
  /\ run_ok (mk_store fs_ab (Some db1) None)
  /\ (forall query image_query,
        query_flow_bytes (mk_fstore fs_ab (Some (torch_save db1)) (Some [])) query image_query
        = Raise (OSError "memery.ann"))
  /\ exists fs' paths,
       index_flow_bytes (mk_fstore fs_ab (Some (torch_save db1)) (Some [])) = Ok (fs', paths)
       /\ exists s', fs' = save_store s' /\ store_inv s'
         /\ forall query image_query, query_flow_bytes fs' query image_query = query_flow s' query image_query.
Proof.
  assert (Hb : annoy_load [] = None) by reflexivity.
  assert (Hpt : db_loader_bytes (Some (torch_save db1)) = Ok (Some db1)) by (vm_compute; reflexivity).
  assert (Hok : run_ok (mk_store fs_ab (Some db1) None)).
  { split; [vm_compute; constructor; [simpl; intuition discriminate|]; constructor; [simpl; tauto|constructor]|].
    split; [vm_compute; repeat constructor|]. split.
    - vm_compute. constructor; [simpl; intuition discriminate|]. constructor; [simpl; tauto|]. constructor.
    - exact clip_demo_dims. }
  split; [exact Hb|]. split; [exact Hpt|]. split; [exact Hok|].
  exact (corrupt_index_repaired _ _ _ _ Hb Hpt Hok).
Defined.
